(** * bboxy: the bounding-box controller of [src/app/components/Map.tsx]

    The component keeps a drag-to-rectangle state machine, formats the box
    for display and for the URL fragment, and reads the box back from the
    fragment.  The development embeds the component's handlers as functions
    on an explicit state and an explicit browser/map environment, together
    with the ECMAScript built-ins they call ([Number], [isNaN], [Math.min],
    [Math.max], [===], [String.prototype.split], [Array.prototype.join],
    [Intl.NumberFormat]) and with what the browser and Mapbox do with their
    calls: the percent-encoding of the fragment given to [pushState], the
    check of the corners given to [fitBounds], and [setStyle]. *)

From Stdlib Require Import ZArith List Bool Ascii String Lia.
Import ListNotations.
Local Open Scope string_scope.
Local Open Scope Z_scope.

(** ** ECMAScript Number values

    A Number is an IEEE-754 binary64 value.  ECMAScript has one NaN; every
    other value is kept as its sign bit and the remaining 63 bits of its
    encoding read as an integer: the biased exponent in the top 11 bits and
    the fraction in the low 52.  [Num false 0] is [+0], [Num true 0] is
    [-0], and the magnitude [INF] is infinity. *)

Inductive number : Type :=
  | NaN
  | Num (neg : bool) (mag : Z).

Definition FRAC : Z := 2 ^ 52.
Definition INF : Z := 2047 * FRAC.

(** The finite values are those with a magnitude below the one of infinity. *)
Definition finite (x : number) : Prop :=
  match x with
  | NaN => False
  | Num _ m => 0 <= m < INF
  end.

Definition finiteb (x : number) : bool :=
  match x with
  | NaN => false
  | Num _ m => (0 <=? m) && (m <? INF)
  end.

(** A Number other than NaN: a sign and the encoding of a magnitude. *)
Definition is_number (x : number) : Prop :=
  match x with
  | NaN => False
  | Num _ m => 0 <= m <= INF
  end.

(** Biased exponent and significand of a magnitude; a biased exponent of 0
    is a subnormal, without the implicit leading bit. *)
Definition biased (m : Z) : Z := m / FRAC.
Definition significand (m : Z) : Z :=
  if biased m =? 0 then m mod FRAC else FRAC + m mod FRAC.

(** The absolute value of a finite Number in units of [2^-1074] (the least
    subnormal), which is always an integer. *)
Definition scaled (m : Z) : Z :=
  significand m * 2 ^ (Z.max (biased m) 1 - 1).

(** The position of a Number in the order that [Math.min] and [Math.max]
    use, in which [-0] comes before [+0]. *)
Definition key (neg : bool) (m : Z) : Z :=
  if neg then - m - 1 else m.

(** [isNaN] on a Number. *)
Definition isNaN (x : number) : bool :=
  match x with
  | NaN => true
  | Num _ _ => false
  end.

(** The global [isNaN] on a destructured array element, which is
    [undefined] ([None]) when the array is too short: [ToNumber(undefined)]
    is NaN. *)
Definition isNaN_elt (x : option number) : bool :=
  match x with
  | None => true
  | Some v => isNaN v
  end.

(** [Math.min] and [Math.max] of two arguments: NaN when either is NaN. *)
Definition Math_min (a b : number) : number :=
  match a, b with
  | Num s m, Num s' m' => if key s m <=? key s' m' then a else b
  | _, _ => NaN
  end.

Definition Math_max (a b : number) : number :=
  match a, b with
  | Num s m, Num s' m' => if key s m <=? key s' m' then b else a
  | _, _ => NaN
  end.

(** Strict equality [===] on Numbers: NaN equals nothing, [+0 === -0]. *)
Definition strict_eq (a b : number) : bool :=
  match a, b with
  | Num s m, Num s' m' => (m =? m') && ((m =? 0) || Bool.eqb s s')
  | _, _ => false
  end.

(** The relational operator [<=] on Numbers: false when either is NaN, and
    the two zeros are equal.  The encodings of the magnitudes are ordered as
    the magnitudes, so that a Number has the place of its signed encoding. *)
Definition signed (neg : bool) (m : Z) : Z := if neg then - m else m.

Definition num_le (a b : number) : bool :=
  match a, b with
  | Num s m, Num s' m' => signed s m <=? signed s' m'
  | _, _ => false
  end.

(** *** Rounding a non-negative rational to the nearest Number

    [rne n d] is the integer nearest to [n / d], ties to even. *)
Definition rne (n d : Z) : Z :=
  let q := n / d in
  let r := n mod d in
  if 2 * r <? d then q
  else if d <? 2 * r then q + 1
  else if Z.even q then q else q + 1.

(** [binade n d] is the number of binades of [n / d] above the lowest
    normal one: [max (floor (log2 (n / d)) + 1022) 0]. *)
Definition binade (n d : Z) : Z :=
  Z.max 0 (Z.log2 (n * 2 ^ 1100 / d) - 78).

(** [nearest n d] is the magnitude of the Number nearest to [n / d]
    ([0 <= n], [0 < d]), ties to the even significand, infinity on
    overflow.  In binade [t] one unit in the last place is
    [2 ^ (t - 1074)]. *)
Definition nearest (n d : Z) : Z :=
  let t := binade n d in
  Z.min INF (rne (n * 2 ^ 1074) (d * 2 ^ t) + t * FRAC).

(** An integer literal: the Number nearest to the integer. *)
Definition int (z : Z) : number := Num (z <? 0) (nearest (Z.abs z) 1).

(** ** ECMAScript strings

    Strings are sequences of characters; only the ASCII range matters here:
    [window.location.hash] is percent-encoded by the URL parser, and
    [Intl.NumberFormat] writes ASCII except for the infinity sign, kept as
    its three UTF-8 bytes. *)

(** [s.slice(1)]. *)
Definition slice1 (s : string) : string :=
  match s with
  | EmptyString => EmptyString
  | String _ r => r
  end.

(** [s.split(sep)] for a one-character separator: the pieces between the
    separators, of which there is always at least one. *)
Fixpoint split (sep : ascii) (s : string) : list string :=
  match s with
  | EmptyString => [EmptyString]
  | String c r =>
      if Ascii.eqb c sep then EmptyString :: split sep r
      else match split sep r with
           | [] => [String c EmptyString]
           | p :: ps => String c p :: ps
           end
  end.

(** [arr.join(sep)]. *)
Definition join (sep : string) (l : list string) : string :=
  String.concat sep l.

(** A non-empty string is truthy. *)
Definition truthy (s : string) : bool :=
  match s with
  | EmptyString => false
  | String _ _ => true
  end.

(** *** [Number(s)]: the StringToNumber grammar *)

Definition code (c : ascii) : Z := Z.of_nat (nat_of_ascii c).

Definition is_digit (c : ascii) : bool := (48 <=? code c) && (code c <=? 57).

(** The value of a digit of a numeric literal in base 2, 8, 10 or 16, if
    the character is one. *)
Definition digit_in (base : Z) (c : ascii) : option Z :=
  let k := code c in
  let v := if (48 <=? k) && (k <=? 57) then k - 48
           else if (97 <=? k) && (k <=? 102) then k - 87
           else if (65 <=? k) && (k <=? 70) then k - 55
           else 16 in
  if v <? base then Some v else None.

(** StrWhiteSpaceChar, in the ASCII range: TAB, LF, VT, FF, CR, SP. *)
Definition is_space (c : ascii) : bool :=
  let k := code c in ((9 <=? k) && (k <=? 13)) || (k =? 32).

Fixpoint trim_start (s : string) : string :=
  match s with
  | EmptyString => EmptyString
  | String c r => if is_space c then trim_start r else s
  end.

Fixpoint trim_end (s : string) : string :=
  match s with
  | EmptyString => EmptyString
  | String c r =>
      match trim_end r with
      | EmptyString => if is_space c then EmptyString else String c EmptyString
      | t => String c t
      end
  end.

(** The longest prefix of decimal digits, and what follows it. *)
Fixpoint span_digits (s : string) : string * string :=
  match s with
  | EmptyString => (EmptyString, EmptyString)
  | String c r =>
      if is_digit c
      then let (d, t) := span_digits r in (String c d, t)
      else (EmptyString, s)
  end.

(** The value of a string of digits in a base, most significant first;
    [None] when a character is not a digit of the base. *)
Fixpoint digits_value (base : Z) (acc : Z) (s : string) : option Z :=
  match s with
  | EmptyString => Some acc
  | String c r =>
      match digit_in base c with
      | Some v => digits_value base (acc * base + v) r
      | None => None
      end
  end.

(** The Number for the mathematical value [mant * 10 ^ e10]. *)
Definition of_decimal (neg : bool) (mant e10 : Z) : number :=
  Num neg (if 0 <=? e10 then nearest (mant * 10 ^ e10) 1
           else nearest mant (10 ^ (- e10))).

(** SignedInteger of an ExponentPart, which must end the literal. *)
Definition SignedInteger (s : string) : option Z :=
  let (neg, u) :=
    match s with
    | String c r =>
        if Ascii.eqb c "+" then (false, r)
        else if Ascii.eqb c "-" then (true, r)
        else (false, s)
    | EmptyString => (false, s)
    end in
  if truthy u then
    match digits_value 10 0 u with
    | Some v => Some (if neg then - v else v)
    | None => None
    end
  else None.

(** What may follow the digits of a decimal literal: nothing, or an
    ExponentPart.  [ds] are the digits read so far, [fl] how many of them
    are after the decimal point. *)
Definition ExponentPart (neg : bool) (ds : string) (fl : Z) (s : string)
  : option number :=
  match digits_value 10 0 ds with
  | None => None
  | Some mant =>
      match s with
      | EmptyString => Some (of_decimal neg mant (- fl))
      | String c r =>
          if Ascii.eqb c "e" || Ascii.eqb c "E" then
            match SignedInteger r with
            | Some e => Some (of_decimal neg mant (e - fl))
            | None => None
            end
          else None
      end
  end.

(** StrUnsignedDecimalLiteral: [Infinity], digits with an optional point and
    fraction, or a point and a fraction; then an optional ExponentPart. *)
Definition StrUnsignedDecimalLiteral (neg : bool) (s : string) : option number :=
  if String.eqb s "Infinity" then Some (Num neg INF)
  else
    let (ip, r) := span_digits s in
    match r with
    | String c r' =>
        if Ascii.eqb c "."
        then
          let (fp, r'') := span_digits r' in
          if truthy ip || truthy fp
          then ExponentPart neg (ip ++ fp) (Z.of_nat (String.length fp)) r''
          else None
        else if truthy ip then ExponentPart neg ip 0 r else None
    | EmptyString => if truthy ip then ExponentPart neg ip 0 r else None
    end.

(** StrDecimalLiteral: an optional sign and a StrUnsignedDecimalLiteral. *)
Definition StrDecimalLiteral (s : string) : option number :=
  match s with
  | String c r =>
      if Ascii.eqb c "+" then StrUnsignedDecimalLiteral false r
      else if Ascii.eqb c "-" then StrUnsignedDecimalLiteral true r
      else StrUnsignedDecimalLiteral false s
  | EmptyString => None
  end.

(** NonDecimalIntegerLiteral: [0b], [0o] or [0x] and at least one digit. *)
Definition NonDecimalIntegerLiteral (base : Z) (s : string) : option number :=
  if truthy s then
    match digits_value base 0 s with
    | Some v => Some (Num false (nearest v 1))
    | None => None
    end
  else None.

(** StrNumericLiteral. *)
Definition StrNumericLiteral (s : string) : option number :=
  match s with
  | String c0 (String c1 r) =>
      if Ascii.eqb c0 "0" && (Ascii.eqb c1 "b" || Ascii.eqb c1 "B")
      then NonDecimalIntegerLiteral 2 r
      else if Ascii.eqb c0 "0" && (Ascii.eqb c1 "o" || Ascii.eqb c1 "O")
      then NonDecimalIntegerLiteral 8 r
      else if Ascii.eqb c0 "0" && (Ascii.eqb c1 "x" || Ascii.eqb c1 "X")
      then NonDecimalIntegerLiteral 16 r
      else StrDecimalLiteral s
  | _ => StrDecimalLiteral s
  end.

(** [Number(s)] for a string [s]: white space is trimmed, the empty string
    is [+0], a StrNumericLiteral is rounded to the nearest Number, and
    anything else is NaN. *)
Definition Number (s : string) : number :=
  let t := trim_end (trim_start s) in
  if truthy t then
    match StrNumericLiteral t with
    | Some v => v
    | None => NaN
    end
  else Num false 0.

(** *** [Intl.NumberFormat('en-US', {minimumFractionDigits: 0,
        maximumFractionDigits: 6, useGrouping: false}).format] *)

Definition digit_char (d : Z) : ascii := ascii_of_nat (Z.to_nat (48 + d)).

(** The decimal digits of a non-negative integer, most significant first. *)
Fixpoint digits_of (fuel : nat) (n : Z) (acc : string) : string :=
  match fuel with
  | O => acc
  | S f =>
      let acc' := String (digit_char (n mod 10)) acc in
      if n <? 10 then acc' else digits_of f (n / 10) acc'
  end.

Definition decimal_digits (n : Z) : string :=
  digits_of (S (Z.to_nat (Z.log2 n))) n EmptyString.

(** The [k] low decimal digits of [f], most significant first, without the
    zeros at the end. *)
Fixpoint fraction_digits (k : nat) (f : Z) : string :=
  match k with
  | O => EmptyString
  | S k' =>
      let p := 10 ^ Z.of_nat k' in
      if f =? 0 then EmptyString
      else String (digit_char (f / p mod 10)) (fraction_digits k' (f mod p))
  end.

(** The formatter (ICU, in every browser) does not round the exact value of
    the Number: it first takes the shortest decimal that reads back as the
    Number, the one [Number.prototype.toString] prints, and rounds that
    decimal.  So 120.7605425, whose nearest Number is a little below it, is
    written 120.760543. *)

(** [ilog10 n d] is [floor (log10 (n / d))] for [10^-400 <= n / d]. *)
Definition ilog10 (n d : Z) : Z :=
  Z.of_nat (String.length (decimal_digits (n * 10 ^ 400 / d))) - 401.

(** The decimal [c * 10^e] as a fraction. *)
Definition decimal (c e : Z) : Z * Z :=
  if e <? 0 then (c, 10 ^ (- e)) else (c * 10 ^ e, 1).

(** The fraction reads back as the Number of magnitude [m]. *)
Definition reads_as (m : Z) (x : Z * Z) : bool := nearest (fst x) (snd x) =? m.

(** The decimal of [k] significant digits for the magnitude [m], whose value
    is in [[10^p, 10^(p+1))]: of the two multiples of [10^(p-k+1)] around
    the value, the nearer one that reads back as [m], if one does. *)
Definition candidate (m p k : Z) : option (Z * Z) :=
  let e := p - k + 1 in
  let a := if e <? 0 then scaled m * 10 ^ (- e) else scaled m in
  let b := if e <? 0 then 2 ^ 1074 else 2 ^ 1074 * 10 ^ e in
  let c := rne a b in
  let c' := if c =? a / b then a / b + 1 else a / b in
  if reads_as m (decimal c e) then Some (decimal c e)
  else if reads_as m (decimal c' e) then Some (decimal c' e)
  else None.

(** The first candidate from [k] digits on.  17 digits always tell a Number
    from its neighbours, so the exact value, kept for the end, is never
    needed. *)
Fixpoint shortest_from (fuel : nat) (m p k : Z) : Z * Z :=
  match fuel with
  | O => (scaled m, 2 ^ 1074)
  | S f =>
      match candidate m p k with
      | Some x => x
      | None => shortest_from f m p (k + 1)
      end
  end.

(** The shortest decimal that reads back as the finite magnitude [m], as a
    fraction. *)
Definition shortest (m : Z) : Z * Z :=
  if m =? 0 then (0, 1)
  else shortest_from 17 m (ilog10 (scaled m) (2 ^ 1074)) 1.

(** The shortest decimal of the finite magnitude [m] times [10^6], rounded
    to an integer, halves away from zero (the default rounding mode,
    halfExpand). *)
Definition micro (m : Z) : Z :=
  let (n, d) := shortest m in (2 * (n * 10 ^ 6) + d) / (2 * d).

(** A count of millionths written with at most 6 fraction digits. *)
Definition fixed6 (n : Z) : string :=
  let f := n mod 10 ^ 6 in
  decimal_digits (n / 10 ^ 6)
  ++ (if f =? 0 then EmptyString else String "." (fraction_digits 6 f)).

(** The formatted Number for these options: NaN and the infinities by name
    and sign, a minus sign for the negative Numbers, [-0] and those that
    round to zero included, and the shortest decimal of the magnitude
    rounded to at most 6 fraction digits, with at least one integer digit
    and no grouping. *)
Definition format (x : number) : string :=
  match x with
  | NaN => "NaN"
  | Num neg m =>
      (if neg then "-" else EmptyString)
      ++ (if INF <=? m then "∞" else fixed6 (micro m))
  end.

(** ** The component state ([Map.tsx], lines 27-42) *)

(** [LngLat]: a longitude and a latitude. *)
Abbreviation LngLat := (number * number)%type.

(** [interface BoundingBox]; [null] is [None]. *)
Record BoundingBox : Type := mkBox {
  start : option LngLat;
  end_ : option LngLat
}.

Inductive Tool : Type := hand | rectangle.
Inductive MapStyle : Type := streets | satellite.

Record State : Type := mkState {
  activeTool : Tool;
  boundingBox : BoundingBox;
  isDrawing : bool;
  fitToBoundsNextRender : bool;
  mapStyle : MapStyle
}.

(** The [useState] initial values. *)
Definition initialState : State :=
  {| activeTool := hand;
     boundingBox := {| start := None; end_ := None |};
     isDrawing := false;
     fitToBoundsNextRender := false;
     mapStyle := streets |}.

Definition setBoundingBox (b : BoundingBox) (st : State) : State :=
  {| activeTool := activeTool st;
     boundingBox := b;
     isDrawing := isDrawing st;
     fitToBoundsNextRender := fitToBoundsNextRender st;
     mapStyle := mapStyle st |}.

Definition setActiveTool (t : Tool) (st : State) : State :=
  {| activeTool := t;
     boundingBox := boundingBox st;
     isDrawing := isDrawing st;
     fitToBoundsNextRender := fitToBoundsNextRender st;
     mapStyle := mapStyle st |}.

Definition setIsDrawing (d : bool) (st : State) : State :=
  {| activeTool := activeTool st;
     boundingBox := boundingBox st;
     isDrawing := d;
     fitToBoundsNextRender := fitToBoundsNextRender st;
     mapStyle := mapStyle st |}.

Definition setFitToBoundsNextRender (f : bool) (st : State) : State :=
  {| activeTool := activeTool st;
     boundingBox := boundingBox st;
     isDrawing := isDrawing st;
     fitToBoundsNextRender := f;
     mapStyle := mapStyle st |}.

Definition setMapStyle (s : MapStyle) (st : State) : State :=
  {| activeTool := activeTool st;
     boundingBox := boundingBox st;
     isDrawing := isDrawing st;
     fitToBoundsNextRender := fitToBoundsNextRender st;
     mapStyle := s |}.

Definition Tool_eqb (a b : Tool) : bool :=
  match a, b with
  | hand, hand | rectangle, rectangle => true
  | _, _ => false
  end.

(** ** The environment: the browser's location and history, and the map *)

Record Location : Type := mkLocation {
  pathname : string;
  search : string;
  hash : string   (* [window.location.hash]: empty, or [#] and the fragment *)
}.

Record Browser : Type := mkBrowser {
  location : Location;
  history : list string   (* the URLs given to [pushState], latest first *)
}.

(** The data of the GeoJSON source: an empty feature collection, or one
    polygon feature with its rings of positions. *)
Inductive GeoJSON : Type :=
  | FeatureCollection (features : list (list (list LngLat)))
  | Feature_Polygon (coordinates : list (list LngLat)).

Record Layer : Type := mkLayer {
  layer_id : string;
  layer_type : string;
  layer_source : string
}.

Record FitBounds : Type := mkFitBounds {
  southwest : LngLat;
  northeast : LngLat;
  padding : Z;
  duration : Z
}.

(** The Mapbox map behind [mapRef]: the data of the source [bbox-source]
    when the source exists, the layers added, and the [fitBounds] calls made
    on it, latest first, those that Mapbox refused by throwing included. *)
Record MapGL : Type := mkMap {
  bbox_source : option GeoJSON;
  layers : list Layer;
  fitBounds_calls : list FitBounds
}.

Record Env : Type := mkEnv {
  window : Browser;
  mapRef : option MapGL   (* [mapRef.current] *)
}.

Definition FIT_BOUNDS_PADDING : Z := 160.
Definition FIT_BOUNDS_ANIMATION_DURATION_MS : Z := 150.

(** The fragment percent-encode set of the URL standard, on the bytes of a
    string: the C0 controls, the space, the double quote, [<], [>], the
    backquote, and every byte above [~], so each byte of a character
    outside ASCII. *)
Definition fragment_percent_encode_set (c : ascii) : bool :=
  let k := code c in
  (k <=? 32) || (k =? 34) || (k =? 60) || (k =? 62) || (k =? 96) || (126 <? k).

Definition hex_digit (d : Z) : ascii :=
  if d <? 10 then digit_char d else ascii_of_nat (Z.to_nat (55 + d)).

(** The fragment as the URL parser keeps it: the bytes of the set become
    [%] and two upper-case hexadecimal digits.  (The parser drops tabs and
    newlines before that; a formatted box has none.) *)
Fixpoint fragment_encode (s : string) : string :=
  match s with
  | EmptyString => EmptyString
  | String c r =>
      if fragment_percent_encode_set c
      then String "%" (String (hex_digit (code c / 16))
                         (String (hex_digit (code c mod 16)) (fragment_encode r)))
      else String c (fragment_encode r)
  end.

(** The fragment part of a URL as [location.hash] reports it: from the
    first [#] on, percent-encoded, and empty when nothing follows the
    [#]. *)
Fixpoint url_hash (url : string) : string :=
  match url with
  | EmptyString => EmptyString
  | String c r =>
      if Ascii.eqb c "#"
      then (if truthy r then String "#" (fragment_encode r) else EmptyString)
      else url_hash r
  end.

(** [window.history.pushState(_, '', url)] for a URL that keeps the path
    and the query of the page, as [updateURL] builds it (such a URL stays on
    the origin of the page, the one condition under which [pushState]
    accepts it): no navigation, no [hashchange] event.  The history keeps
    the URL as it was given. *)
Definition pushState (url : string) (w : Browser) : Browser :=
  {| location := {| pathname := pathname (location w);
                    search := search (location w);
                    hash := url_hash url |};
     history := url :: history w |}.

(** ** The handlers *)

(** [handleHashChange] (lines 46-60). *)
Definition handleHashChange (env : Env) (st : State) : State :=
  let hash := slice1 (hash (location (window env))) in
  if truthy hash then
    let nums := map Number (split "," hash) in
    let lon1 := nth_error nums 0 in
    let lat1 := nth_error nums 1 in
    let lon2 := nth_error nums 2 in
    let lat2 := nth_error nums 3 in
    if negb (isNaN_elt lon1) && negb (isNaN_elt lat1)
       && negb (isNaN_elt lon2) && negb (isNaN_elt lat2)
    then
      match lon1, lat1, lon2, lat2 with
      | Some lon1, Some lat1, Some lon2, Some lat2 =>
          setFitToBoundsNextRender true
            (setBoundingBox {| start := Some (lon1, lat1);
                               end_ := Some (lon2, lat2) |} st)
      | _, _, _, _ => st
      end
    else st
  else st.

(** [formatCoordinate] (lines 72-78). *)
Definition formatCoordinate (coord : number) : string := format coord.

Inductive Order : Type := latLon | lonLat.

Record Options : Type := mkOptions {
  separator : option string;
  order : option Order
}.

Definition noOptions : Options := {| separator := None; order := None |}.

(** [formatBoundingBox] (lines 81-122). *)
Definition formatBoundingBox (start end_ : option LngLat) (options : Options)
  : string :=
  let separator := match separator options with Some s => s | None => "," end in
  let order := match order options with Some o => o | None => lonLat end in
  match start, end_ with
  | Some (lon1, lat1), Some (lon2, lat2) =>
      let minLon := Math_min lon1 lon2 in
      let minLat := Math_min lat1 lat2 in
      let maxLon := Math_max lon1 lon2 in
      let maxLat := Math_max lat1 lat2 in
      match order with
      | lonLat =>
          join separator [formatCoordinate minLon; formatCoordinate minLat;
                          formatCoordinate maxLon; formatCoordinate maxLat]
      | latLon =>
          join separator [formatCoordinate minLat; formatCoordinate minLon;
                          formatCoordinate maxLat; formatCoordinate maxLon]
      end
  | _, _ => EmptyString
  end.

(** [updateURL] (lines 125-135). *)
Definition updateURL (start end_ : option LngLat) (env : Env) : Env :=
  let bboxString := formatBoundingBox start end_ noOptions in
  let newUrl := pathname (location (window env))
                ++ search (location (window env)) ++ "#" ++ bboxString in
  {| window := pushState newUrl (window env); mapRef := mapRef env |}.

(** [handleMouseDown] (lines 137-150), also the touch-start handler. *)
Definition handleMouseDown (e : LngLat) (st : State) : State :=
  match activeTool st with
  | hand => st
  | rectangle =>
      let (lon, lat) := e in
      setIsDrawing true
        (setBoundingBox {| start := Some (lon, lat); end_ := None |} st)
  end.

(** The guard shared by [handleMouseMove] and [handleMouseUp]:
    [activeTool !== 'rectangle' || !isDrawing || !boundingBox.start]. *)
Definition notDrawingRectangle (st : State) : bool :=
  negb (Tool_eqb (activeTool st) rectangle)
  || negb (isDrawing st)
  || match start (boundingBox st) with None => true | Some _ => false end.

(** [handleMouseMove] (lines 152-164), also the touch-move handler. *)
Definition handleMouseMove (e : LngLat) (st : State) : State :=
  if notDrawingRectangle st then st
  else
    let (lon, lat) := e in
    setBoundingBox {| start := start (boundingBox st);
                      end_ := Some (lon, lat) |} st.

(** [handleMouseUp] (lines 166-200), also the touch-end handler. *)
Definition handleMouseUp (e : LngLat) (st : State) (env : Env) : State * Env :=
  if notDrawingRectangle st then (st, env)
  else
    match start (boundingBox st) with
    | None => (st, env)   (* excluded by the guard *)
    | Some start0 =>
        let (lon, lat) := e in
        let end0 := (lon, lat) in
        let isBoundsEmpty :=
          strict_eq (fst start0) (fst end0) && strict_eq (snd start0) (snd end0) in
        let st1 :=
          if isBoundsEmpty
          then setBoundingBox {| start := None; end_ := None |} st
          else setBoundingBox {| start := start (boundingBox st);
                                 end_ := Some end0 |} st in
        let st2 := setActiveTool hand (setIsDrawing false st1) in
        if negb isBoundsEmpty   (* [boundingBox.start] is set here *)
        then (setFitToBoundsNextRender true st2,
              updateURL (Some start0) (Some end0) env)
        else (st2, updateURL None None env)
    end.

Definition emptyCollection : GeoJSON := FeatureCollection [].

Definition setData (g : GeoJSON) (m : MapGL) : MapGL :=
  {| bbox_source := Some g;
     layers := layers m;
     fitBounds_calls := fitBounds_calls m |}.

(** [addSource('bbox-source', ...)] followed by the two [addLayer] calls. *)
Definition addSourceAndLayers (g : GeoJSON) (m : MapGL) : MapGL :=
  {| bbox_source := Some g;
     layers := layers m
               ++ [ {| layer_id := "bbox-fill"; layer_type := "fill";
                       layer_source := "bbox-source" |};
                    {| layer_id := "bbox-outline"; layer_type := "line";
                       layer_source := "bbox-source" |} ];
     fitBounds_calls := fitBounds_calls m |}.

(** [renderBoundingBox] (lines 203-276). *)
Definition renderBoundingBox (box : BoundingBox) (env : Env) : Env :=
  match start box, end_ box with
  | Some (lon1, lat1), Some (lon2, lat2) =>
      let coordinates :=
        [(lon1, lat1); (lon2, lat1); (lon2, lat2); (lon1, lat2); (lon1, lat1)] in
      let geojson := Feature_Polygon [coordinates] in
      match mapRef env with
      | Some map =>
          {| window := window env;
             mapRef := Some (match bbox_source map with
                             | Some _ => setData geojson map
                             | None => addSourceAndLayers geojson map
                             end) |}
      | None => env
      end
  | _, _ =>
      match mapRef env with
      | Some map =>
          match bbox_source map with
          | Some _ =>
              {| window := window env;
                 mapRef := Some (setData emptyCollection map) |}
          | None => env
          end
      | None => env
      end
  end.

(** [getFormattedBoundingBox] (lines 279-284). *)
Definition getFormattedBoundingBox (st : State) : string :=
  let s := formatBoundingBox (start (boundingBox st)) (end_ (boundingBox st))
             noOptions in
  if truthy s then s else "No bounding box selected".

(** [handleKeyDown] (lines 288-300). *)
Definition handleKeyDown (key : string)
  (metaKey altKey ctrlKey shiftKey : bool) (st : State) : State :=
  let noModifiers :=
    negb metaKey && negb altKey && negb ctrlKey && negb shiftKey in
  if String.eqb key "r" && noModifiers then setActiveTool rectangle st
  else if String.eqb key "h" && noModifiers then setActiveTool hand st
  else if String.eqb key "s" && noModifiers then
    setMapStyle (match mapStyle st with
                 | streets => satellite
                 | satellite => streets
                 end) st
  else st.

(** Mapbox's [LngLat] constructor, through which [fitBounds] takes the
    corners of its bounds: it throws for NaN and for a latitude outside
    [[-90, 90]]. *)
Definition latitude_in_range (lat : number) : bool :=
  num_le (int (-90)) lat && num_le lat (int 90).

Definition LngLat_valid (p : LngLat) : bool :=
  negb (isNaN (fst p)) && negb (isNaN (snd p)) && latitude_in_range (snd p).

(** [map.fitBounds(bounds, options)] returns when both corners pass the
    constructor, and throws otherwise.  (What the camera makes of an
    infinite longitude, which the constructor lets through, is not
    modelled: the properties of the flag are stated for finite corners.) *)
Definition fitBounds_returns (c : FitBounds) : bool :=
  LngLat_valid (southwest c) && LngLat_valid (northeast c).

(** [fitToBoundsIfRequested] (lines 317-342), the map's [onRender].  When
    [fitBounds] throws, the handler is left at the call of line 324:
    [setFitToBoundsNextRender(false)] of line 340 is not reached. *)
Definition fitToBoundsIfRequested (st : State) (env : Env) : State * Env :=
  match fitToBoundsNextRender st, mapRef env,
        start (boundingBox st), end_ (boundingBox st) with
  | true, Some map, Some start0, Some end0 =>
      let call :=
        {| southwest := (Math_min (fst start0) (fst end0),
                         Math_min (snd start0) (snd end0));
           northeast := (Math_max (fst start0) (fst end0),
                         Math_max (snd start0) (snd end0));
           padding := FIT_BOUNDS_PADDING;
           duration := FIT_BOUNDS_ANIMATION_DURATION_MS |} in
      let env' :=
        {| window := window env;
           mapRef := Some {| bbox_source := bbox_source map;
                             layers := layers map;
                             fitBounds_calls := call :: fitBounds_calls map |} |} in
      if fitBounds_returns call
      then (setFitToBoundsNextRender false st, env')
      else (st, env')
  | _, _, _, _ => (st, env)
  end.

Definition MapStyle_eqb (a b : MapStyle) : bool :=
  match a, b with
  | streets, streets | satellite, satellite => true
  | _, _ => false
  end.

(** [map.setStyle]: the new style replaces the old one, and the source and
    the layers that were added to the old one at run time go with it.  (The
    new style is taken to have loaded by the next event.) *)
Definition setStyle (m : MapGL) : MapGL :=
  {| bbox_source := None;
     layers := [];
     fitBounds_calls := fitBounds_calls m |}.

(** The [mapStyle] prop of the map (lines 351-355): when the render after
    an event passes another style than the one before, react-map-gl calls
    [setStyle]. *)
Definition syncStyle (st st' : State) (env : Env) : Env :=
  if MapStyle_eqb (mapStyle st) (mapStyle st') then env
  else match mapRef env with
       | Some map => {| window := window env; mapRef := Some (setStyle map) |}
       | None => env
       end.

(** ** Events

    The browser delivers one event at a time; its handler runs to completion
    on the state of the latest render.  The render that follows passes the
    new [mapStyle] to the map, and the effect of lines 312-315 redraws the
    overlay when the handler has set [boundingBox], and only then. *)

Inductive Event : Type :=
  | hashchange (h : string)   (* navigation that leaves [location.hash = h] *)
  | mousedown (e : LngLat)    (* [onMouseDown], [onTouchStart] *)
  | mousemove (e : LngLat)    (* [onMouseMove], [onTouchMove] *)
  | mouseup (e : LngLat)      (* [onMouseUp], [onTouchEnd] *)
  | keydown (key : string) (metaKey altKey ctrlKey shiftKey : bool)
  | clickTool (t : Tool)      (* the tool buttons *)
  | clickStyle (s : MapStyle) (* the style buttons *)
  | load                      (* [onLoad] *)
  | render.                   (* [onRender] *)

Definition navigate (h : string) (env : Env) : Env :=
  {| window := {| location := {| pathname := pathname (location (window env));
                                 search := search (location (window env));
                                 hash := h |};
                  history := history (window env) |};
     mapRef := mapRef env |}.

(** The test of lines 48-50 of the fragment handler: the fragment is not
    empty and its first four components convert to Numbers other than
    NaN. *)
Definition fragment_accepted (env : Env) : bool :=
  let hash := slice1 (hash (location (window env))) in
  let nums := map Number (split "," hash) in
  truthy hash
  && (negb (isNaN_elt (nth_error nums 0)) && negb (isNaN_elt (nth_error nums 1))
      && negb (isNaN_elt (nth_error nums 2)) && negb (isNaN_elt (nth_error nums 3))).

(** The handler of the event calls [setBoundingBox].  Every call stores a
    new object, equal or not to the one before, so that the effect of lines
    312-315, which depends on [boundingBox], runs after it. *)
Definition setsBoundingBox (ev : Event) (st : State) (env : Env) : bool :=
  match ev with
  | hashchange h => fragment_accepted (navigate h env)
  | mousedown _ => Tool_eqb (activeTool st) rectangle
  | mousemove _ | mouseup _ => negb (notDrawingRectangle st)
  | _ => false
  end.

Definition handle (ev : Event) (st : State) (env : Env) : State * Env :=
  match ev with
  | hashchange h => let env' := navigate h env in (handleHashChange env' st, env')
  | mousedown e => (handleMouseDown e st, env)
  | mousemove e => (handleMouseMove e st, env)
  | mouseup e => handleMouseUp e st env
  | keydown k m a c s =>
      let st' := handleKeyDown k m a c s st in (st', syncStyle st st' env)
  | clickTool t => (setActiveTool t st, env)
  | clickStyle s =>
      let st' := setMapStyle s st in (st', syncStyle st st' env)
  | load => (st, renderBoundingBox (boundingBox st) env)
  | render => fitToBoundsIfRequested st env
  end.

Definition step (ev : Event) (s : State * Env) : State * Env :=
  let (st, env) := s in
  let (st', env') := handle ev st env in
  if setsBoundingBox ev st env
  then (st', renderBoundingBox (boundingBox st') env')
  else (st', env').

(** The first render: the initial [handleHashChange()] of line 63. *)
Definition mount (env : Env) : State * Env :=
  let st := handleHashChange env initialState in
  (st, renderBoundingBox (boundingBox st) env).

Definition run (evs : list Event) (s : State * Env) : State * Env :=
  fold_left (fun s ev => step ev s) evs s.

(** ** Notions used to state the properties *)

(** The southwest and northeast corners of a box with both corners set, as
    [formatBoundingBox] and [fitToBoundsIfRequested] compute them. *)
Definition normalized (s e : LngLat) : LngLat * LngLat :=
  ((Math_min (fst s) (fst e), Math_min (snd s) (snd e)),
   (Math_max (fst s) (fst e), Math_max (snd s) (snd e))).

(** A Number rounded to 6 decimals: the Number nearest to the decimal of 6
    fraction digits that [formatCoordinate] writes for it, which is its
    shortest decimal rounded to a multiple of [10^-6] (halves away from
    zero). *)
Definition round6 (x : number) : number :=
  match x with
  | NaN => NaN
  | Num neg m => if INF <=? m then x else Num neg (nearest (micro m) (10 ^ 6))
  end.

Definition round6_corner (p : LngLat) : LngLat := (round6 (fst p), round6 (snd p)).

(** A fragment is malformed when one of its first four comma-separated
    components is missing or does not convert to a Number. *)
Definition malformed (fragment : string) : Prop :=
  exists i, (i < 4)%nat /\
    isNaN_elt (nth_error (map Number (split "," fragment)) i) = true.

(** The drawing state of the machine: [isDrawing] with [start] set. *)
Definition Drawing (st : State) : Prop :=
  isDrawing st = true /\ start (boundingBox st) <> None.

Definition env0 : Env :=
  {| window := {| location := {| pathname := "/"; search := ""; hash := "" |};
                  history := [] |};
     mapRef := Some {| bbox_source := None; layers := []; fitBounds_calls := [] |} |}.

(** A state in the middle of a drag that started at (151, -33), used in the
    examples. *)
Definition dragging : State :=
  {| activeTool := rectangle;
     boundingBox := {| start := Some (int 151, int (-33)); end_ := None |};
     isDrawing := true;
     fitToBoundsNextRender := false;
     mapStyle := streets |}.

(** The statement of C4 as the specification words it: every fragment of
    four components that convert to numbers replaces the box and sets the
    flag, and the next render of a mounted map fits the viewport to the
    box, which consumes the flag. *)
Definition valid_fragment_fits : Prop :=
  forall (fragment : string) (env : Env) (st : State) (map : MapGL)
         (c1 c2 c3 c4 : string),
    split "," fragment = [c1; c2; c3; c4] ->
    isNaN (Number c1) = false -> isNaN (Number c2) = false ->
    isNaN (Number c3) = false -> isNaN (Number c4) = false ->
    mapRef env = Some map ->
    let env' := navigate (String "#" fragment) env in
    let st' := handleHashChange env' st in
    boundingBox st' = {| start := Some (Number c1, Number c2);
                         end_ := Some (Number c3, Number c4) |}
    /\ fitToBoundsNextRender st' = true
    /\ fitToBoundsNextRender (fst (fitToBoundsIfRequested st' env')) = false.

(** The statement of C5 as the specification words it: every drag that
    ends on the stored start resets the box. *)
Definition degenerate_drag_always_resets : Prop :=
  forall (st : State) (env : Env) (start0 e : LngLat),
    isDrawing st = true -> start (boundingBox st) = Some start0 ->
    strict_eq (fst start0) (fst e) = true ->
    strict_eq (snd start0) (snd e) = true ->
    boundingBox (fst (handleMouseUp e st env)) = {| start := None; end_ := None |}.

(** The statement of C7 as the specification words it: in the drawing state
    every pointer-move event moves the end of the box. *)
Definition move_fires_whenever_drawing : Prop :=
  forall (st : State) (e : LngLat),
    Drawing st ->
    boundingBox (handleMouseMove e st)
    = {| start := start (boundingBox st); end_ := Some e |}.

Definition noMod (k : string) : Event := keydown k false false false false.

(** The magnitude of [round6]: that of infinity stays. *)
Definition round6_mag (m : Z) : Z :=
  if INF <=? m then m else nearest (micro m) (10 ^ 6).

(** Every character of the string passes the test. *)
Fixpoint all_chars (p : ascii -> bool) (s : string) : bool :=
  match s with
  | EmptyString => true
  | String c r => p c && all_chars p r
  end.

(** The characters of a formatted finite Number: digits, the point and the
    minus sign. *)
Definition is_numeric (c : ascii) : bool :=
  is_digit c || Ascii.eqb c "." || Ascii.eqb c "-".

Definition not_comma (c : ascii) : bool := negb (Ascii.eqb c ",").
Definition not_hash (c : ascii) : bool := negb (Ascii.eqb c "#").

(** The round trip of C2 for one box: the fragment that [formatBoundingBox]
    writes for the corners [s] and [e] is read back by the handler as a box
    whose southwest and northeast corners are those of the box written,
    rounded to 6 decimals. *)
Definition roundtrip (s e : LngLat) : Prop :=
  forall (env : Env) (st : State),
    let fragment := formatBoundingBox (Some s) (Some e) noOptions in
    exists s' e',
      boundingBox (handleHashChange (navigate (String "#" fragment) env) st)
      = {| start := Some s'; end_ := Some e' |}
      /\ normalized s' e'
         = (round6_corner (fst (normalized s e)),
            round6_corner (snd (normalized s e))).

(** The count of millionths that [formatCoordinate] writes for a finite
    Number, with its sign. *)
Definition millionths (x : number) : Z :=
  match x with
  | NaN => 0
  | Num neg m => signed neg (micro m)
  end.

(** Both coordinates of a corner that is set are Numbers other than NaN. *)
Definition corner_ok (p : option LngLat) : Prop :=
  match p with
  | None => True
  | Some (lon, lat) => is_number lon /\ is_number lat
  end.

Definition box_ok (b : BoundingBox) : Prop :=
  corner_ok (start b) /\ corner_ok (end_ b).

(** Mapbox builds the [lngLat] of an event with its [LngLat] constructor,
    which throws on NaN. *)
Definition event_ok (ev : Event) : Prop :=
  match ev with
  | mousedown e | mousemove e | mouseup e => is_number (fst e) /\ is_number (snd e)
  | _ => True
  end.

(** ** What the component renders from its state (lines 346-438) *)

(** The [dragPan] prop of the map: panning by drag only with the hand tool. *)
Definition dragPan (st : State) : bool := Tool_eqb (activeTool st) hand.

(** ** Notions used for the whole component *)

(** The pointer events, from the mouse or from touch. *)
Definition pointer_event (ev : Event) : Prop :=
  match ev with
  | mousedown _ | mousemove _ | mouseup _ => True
  | _ => False
  end.

(** The data of [bbox-source] on the map, when the map and the source
    exist. *)
Definition overlay (env : Env) : option GeoJSON :=
  match mapRef env with
  | Some map => bbox_source map
  | None => None
  end.

(** The ring that [renderBoundingBox] draws for two corners. *)
Definition ring (s e : LngLat) : GeoJSON :=
  Feature_Polygon [[(fst s, snd s); (fst e, snd s); (fst e, snd e);
                    (fst s, snd e); (fst s, snd s)]].





(** [end] is only set on a box whose [start] is set. *)
Definition start_before_end (b : BoundingBox) : Prop :=
  end_ b <> None -> start b <> None.


(** A corner that Mapbox takes in the bounds of [fitBounds]: a finite
    longitude and a latitude within [[-90, 90]]. *)
Definition corner_fits (p : option LngLat) : Prop :=
  match p with
  | None => True
  | Some (lon, lat) => finite lon /\ latitude_in_range lat = true
  end.

Definition box_fits (b : BoundingBox) : Prop :=
  corner_fits (start b) /\ corner_fits (end_ b).

(** The handler of [onRender] called [n] times in a row. *)
Fixpoint renders (n : nat) (s : State * Env) : State * Env :=
  match n with
  | O => s
  | S k => renders k (fitToBoundsIfRequested (fst s) (snd s))
  end.

(** The pointer-move handler over the coordinates of a sequence of moves. *)
Definition moves (es : list LngLat) (st : State) : State :=
  fold_left (fun st e => handleMouseMove e st) es st.

(** A [fitBounds] call whose southwest corner is not beyond its northeast
    corner, in longitude and in latitude. *)
Definition ordered_call (c : FitBounds) : Prop :=
  num_le (fst (southwest c)) (fst (northeast c)) = true
  /\ num_le (snd (southwest c)) (snd (northeast c)) = true.

Definition calls_ordered (env : Env) : Prop :=
  forall map, mapRef env = Some map -> Forall ordered_call (fitBounds_calls map).

(** The text shown when no box is complete. *)
Definition placeholder : string := "No bounding box selected".

(** * Properties *)

(** ** [Math.min], [Math.max] and the order of Numbers *)

Lemma key_inj s m s' m' :
  0 <= m -> 0 <= m' -> key s m = key s' m' -> s = s' /\ m = m'.
Proof. unfold key. destruct s, s'; intros; split; try reflexivity; lia. Qed.

Lemma Math_min_comm a b :
  is_number a -> is_number b -> Math_min a b = Math_min b a.
Proof.
  destruct a as [|s m], b as [|s' m']; simpl; try tauto. intros Ha Hb.
  destruct (Z.leb_spec (key s m) (key s' m')), (Z.leb_spec (key s' m') (key s m));
    try reflexivity; try lia.
  destruct (key_inj s m s' m') as [-> ->]; try lia. reflexivity.
Qed.

Lemma Math_max_comm a b :
  is_number a -> is_number b -> Math_max a b = Math_max b a.
Proof.
  destruct a as [|s m], b as [|s' m']; simpl; try tauto. intros Ha Hb.
  destruct (Z.leb_spec (key s m) (key s' m')), (Z.leb_spec (key s' m') (key s m));
    try reflexivity; try lia.
  destruct (key_inj s m s' m') as [-> ->]; try lia. reflexivity.
Qed.

Lemma Math_min_cases a b :
  isNaN a = false -> isNaN b = false -> Math_min a b = a \/ Math_min a b = b.
Proof.
  destruct a as [|s m], b as [|s' m']; simpl; try discriminate.
  intros _ _. destruct (key s m <=? key s' m'); auto.
Qed.

Lemma Math_max_cases a b :
  isNaN a = false -> isNaN b = false -> Math_max a b = a \/ Math_max a b = b.
Proof.
  destruct a as [|s m], b as [|s' m']; simpl; try discriminate.
  intros _ _. destruct (key s m <=? key s' m'); auto.
Qed.

Lemma key_le_signed s m s' m' :
  0 <= m -> 0 <= m' -> key s m <= key s' m' -> signed s m <= signed s' m'.
Proof. unfold key, signed. destruct s, s'; lia. Qed.

Lemma num_le_refl a : isNaN a = false -> num_le a a = true.
Proof. destruct a; simpl; [discriminate | intros _; apply Z.leb_refl]. Qed.

Lemma is_number_not_NaN x : is_number x -> isNaN x = false.
Proof. destruct x; simpl; [tauto | reflexivity]. Qed.

Lemma finite_is_number x : finite x -> is_number x.
Proof. destruct x; simpl; [tauto | lia]. Qed.

Lemma Math_min_le_max a b :
  is_number a -> is_number b -> num_le (Math_min a b) (Math_max a b) = true.
Proof.
  destruct a as [|s m], b as [|s' m']; simpl; try tauto.
  intros Ha Hb.
  destruct (Z.leb_spec (key s m) (key s' m')); simpl; apply Z.leb_le.
  - apply key_le_signed; lia.
  - apply key_le_signed; lia.
Qed.

Lemma Math_min_le_l a b :
  is_number a -> is_number b -> num_le (Math_min a b) a = true.
Proof.
  destruct a as [|s m], b as [|s' m']; simpl; try tauto.
  intros Ha Hb.
  destruct (Z.leb_spec (key s m) (key s' m')); simpl; apply Z.leb_le.
  - lia.
  - apply key_le_signed; lia.
Qed.

Lemma Math_max_ge_l a b :
  is_number a -> is_number b -> num_le a (Math_max a b) = true.
Proof.
  destruct a as [|s m], b as [|s' m']; simpl; try tauto.
  intros Ha Hb.
  destruct (Z.leb_spec (key s m) (key s' m')); simpl; apply Z.leb_le.
  - apply key_le_signed; lia.
  - lia.
Qed.

Create HintDb numbers.
#[local] Hint Resolve Math_min_cases Math_max_cases Math_min_le_l Math_max_ge_l
  Math_min_le_max is_number_not_NaN finite_is_number : numbers.

Lemma strict_eq_refl a : isNaN a = false -> strict_eq a a = true.
Proof.
  destruct a as [|s m]; simpl; [discriminate|]. intros _.
  rewrite Z.eqb_refl, Bool.eqb_reflx, orb_true_r. reflexivity.
Qed.

(** ** The fragment handler *)

Lemma split_cons sep s : exists p ps, split sep s = p :: ps.
Proof.
  induction s as [|c r [p [ps IH]]]; simpl; eauto.
  destruct (Ascii.eqb c sep); rewrite ?IH; eauto.
Qed.

Lemma split_two_truthy sep s p q ps : split sep s = p :: q :: ps -> truthy s = true.
Proof. destruct s; simpl; [discriminate | reflexivity]. Qed.

Lemma hash_navigate h env : hash (location (window (navigate h env))) = h.
Proof. reflexivity. Qed.

(** What the handler does with a fragment of at least four components whose
    first four convert to Numbers other than NaN. *)
Lemma handleHashChange_accepts h env st c1 c2 c3 c4 rest :
  split "," (slice1 h) = c1 :: c2 :: c3 :: c4 :: rest ->
  isNaN (Number c1) = false -> isNaN (Number c2) = false ->
  isNaN (Number c3) = false -> isNaN (Number c4) = false ->
  handleHashChange (navigate h env) st
  = setFitToBoundsNextRender true
      (setBoundingBox {| start := Some (Number c1, Number c2);
                         end_ := Some (Number c3, Number c4) |} st).
Proof.
  intros Hs H1 H2 H3 H4. unfold handleHashChange.
  rewrite hash_navigate, (split_two_truthy _ _ _ _ _ Hs), Hs. simpl.
  rewrite H1, H2, H3, H4. reflexivity.
Qed.

(** The handler either keeps the state or replaces the box and sets the
    flag; it touches nothing else. *)
Lemma handleHashChange_cases env st :
  handleHashChange env st = st
  \/ exists b, handleHashChange env st
               = setFitToBoundsNextRender true (setBoundingBox b st).
Proof.
  unfold handleHashChange.
  destruct (truthy _); auto.
  destruct (_ && _); auto.
  repeat match goal with
         | |- context [match ?x with Some _ => _ | None => _ end] => destruct x
         end; eauto.
Qed.

(** C3: an absent or malformed fragment (one of the first four components
    missing or not a number) leaves the whole state, so the box and the
    fit-to-bounds flag, as it was. *)
Theorem C3_malformed_fragment_ignored (h : string) (env : Env) (st : State) :
  slice1 h = EmptyString \/ malformed (slice1 h) ->
  handleHashChange (navigate h env) st = st.
Proof.
  intros H. unfold handleHashChange. rewrite hash_navigate.
  destruct H as [-> | (i & Hi & Hnan)]; [reflexivity|].
  destruct (truthy (slice1 h)); [|reflexivity].
  set (nums := map Number (split "," (slice1 h))) in *.
  assert (negb (isNaN_elt (nth_error nums 0)) && negb (isNaN_elt (nth_error nums 1))
          && negb (isNaN_elt (nth_error nums 2)) && negb (isNaN_elt (nth_error nums 3))
          = false) as ->; [|reflexivity].
  destruct i as [|[|[|[|i]]]]; try lia; rewrite Hnan; simpl;
    rewrite ?andb_false_r; reflexivity.
Qed.

(** The fragment [abc,1,2,3] of the specification is malformed, and leaves
    a fresh state with its empty box. *)
Lemma C3_malformed_fragment_ignored_witness :
  malformed "abc,1,2,3"
  /\ handleHashChange (navigate "#abc,1,2,3" env0) initialState = initialState.
Proof.
  assert (malformed "abc,1,2,3") as M by (exists 0%nat; split; [lia | reflexivity]).
  split; [exact M|].
  apply (C3_malformed_fragment_ignored "#abc,1,2,3" env0 initialState).
  right. exact M.
Defined.

(** [Math.min] and [Math.max] return one of their arguments, so that what
    holds of both holds of the result. *)
Lemma Math_min_pick (P : number -> Prop) a b :
  isNaN a = false -> isNaN b = false -> P a -> P b -> P (Math_min a b).
Proof. intros Ha Hb Pa Pb. destruct (Math_min_cases a b Ha Hb) as [-> | ->]; assumption. Qed.

Lemma Math_max_pick (P : number -> Prop) a b :
  isNaN a = false -> isNaN b = false -> P a -> P b -> P (Math_max a b).
Proof. intros Ha Hb Pa Pb. destruct (Math_max_cases a b Ha Hb) as [-> | ->]; assumption. Qed.

(** Mapbox takes the bounds of a box whose coordinates are not NaN and
    whose latitudes are in range. *)
Lemma fitBounds_returns_box (s e : LngLat) (p d : Z) :
  isNaN (fst s) = false -> isNaN (snd s) = false ->
  isNaN (fst e) = false -> isNaN (snd e) = false ->
  latitude_in_range (snd s) = true -> latitude_in_range (snd e) = true ->
  fitBounds_returns
    {| southwest := (Math_min (fst s) (fst e), Math_min (snd s) (snd e));
       northeast := (Math_max (fst s) (fst e), Math_max (snd s) (snd e));
       padding := p; duration := d |} = true.
Proof.
  intros N1 N2 N3 N4 L1 L2. unfold fitBounds_returns, LngLat_valid.
  cbn [southwest northeast fst snd].
  rewrite (Math_min_pick (fun x => isNaN x = false) _ _ N1 N3 N1 N3),
    (Math_min_pick (fun x => isNaN x = false) _ _ N2 N4 N2 N4),
    (Math_max_pick (fun x => isNaN x = false) _ _ N1 N3 N1 N3),
    (Math_max_pick (fun x => isNaN x = false) _ _ N2 N4 N2 N4),
    (Math_min_pick (fun x => latitude_in_range x = true) _ _ N2 N4 L1 L2),
    (Math_max_pick (fun x => latitude_in_range x = true) _ _ N2 N4 L1 L2).
  reflexivity.
Qed.

(** What the handler of [onRender] does: nothing, or one [fitBounds] call on
    the southwest and northeast corners of the box, after which the flag is
    cleared when the call returns. *)
Lemma fitToBoundsIfRequested_cases st env :
  fitToBoundsIfRequested st env = (st, env)
  \/ exists map s e,
       fitToBoundsNextRender st = true /\ mapRef env = Some map
       /\ start (boundingBox st) = Some s /\ end_ (boundingBox st) = Some e
       /\ let call := {| southwest := fst (normalized s e);
                         northeast := snd (normalized s e);
                         padding := 160; duration := 150 |} in
          fitToBoundsIfRequested st env
          = (if fitBounds_returns call then setFitToBoundsNextRender false st else st,
             {| window := window env;
                mapRef := Some {| bbox_source := bbox_source map;
                                  layers := layers map;
                                  fitBounds_calls := call :: fitBounds_calls map |} |}).
Proof.
  unfold fitToBoundsIfRequested.
  destruct (fitToBoundsNextRender st); [|left; reflexivity].
  destruct (mapRef env) as [map|]; [|left; reflexivity].
  destruct (start (boundingBox st)) as [s|]; [|left; reflexivity].
  destruct (end_ (boundingBox st)) as [e|]; [|left; reflexivity].
  right. exists map, s, e. do 4 (split; [reflexivity|]).
  cbv zeta. unfold normalized, FIT_BOUNDS_PADDING, FIT_BOUNDS_ANIMATION_DURATION_MS.
  cbn [fst snd]. destruct (fitBounds_returns _); reflexivity.
Qed.

Lemma fitToBoundsIfRequested_state st env :
  fst (fitToBoundsIfRequested st env) = st
  \/ fst (fitToBoundsIfRequested st env) = setFitToBoundsNextRender false st.
Proof.
  destruct (fitToBoundsIfRequested_cases st env)
    as [-> | (map & s & e & _ & _ & _ & _ & H)]; [left; reflexivity|].
  cbv zeta in H. rewrite H. cbn [fst]. destruct (fitBounds_returns _); auto.
Qed.

Lemma fitToBoundsIfRequested_window st env :
  window (snd (fitToBoundsIfRequested st env)) = window env.
Proof.
  destruct (fitToBoundsIfRequested_cases st env)
    as [-> | (map & s & e & _ & _ & _ & _ & H)]; [reflexivity|].
  cbv zeta in H. rewrite H. reflexivity.
Qed.

(** What the [mapStyle] prop does to the map: nothing while the style is the
    same, and a map without the source and its layers when it changes. *)
Lemma syncStyle_cases st st' env :
  syncStyle st st' env = env
  \/ (mapStyle st <> mapStyle st'
      /\ exists map, mapRef env = Some map
                     /\ syncStyle st st' env
                        = {| window := window env; mapRef := Some (setStyle map) |}).
Proof.
  unfold syncStyle.
  destruct (mapStyle st) eqn:A, (mapStyle st') eqn:B; cbn [MapStyle_eqb]; auto;
    (destruct (mapRef env) as [map|]; [|auto]);
    right; (split; [discriminate|]); exists map; split; reflexivity.
Qed.

Lemma syncStyle_window st st' env : window (syncStyle st st' env) = window env.
Proof.
  destruct (syncStyle_cases st st' env) as [-> | (_ & map & _ & ->)]; reflexivity.
Qed.

(** C4 fails as worded: the fragment [-10,200,-5,250] is four numbers, so
    the handler takes it and sets the flag, but Mapbox refuses the
    latitudes 200 and 250: [fitBounds] throws at the next render, the
    viewport is not fitted and the flag stays set. *)
Lemma C4_counterexample :
  let env' := navigate "#-10,200,-5,250" env0 in
  let st' := handleHashChange env' initialState in
  boundingBox st' = {| start := Some (int (-10), int 200);
                       end_ := Some (int (-5), int 250) |}
  /\ fitToBoundsNextRender st' = true
  /\ fitBounds_returns {| southwest := (int (-10), int 200);
                          northeast := (int (-5), int 250);
                          padding := 160; duration := 150 |} = false
  /\ fst (fitToBoundsIfRequested st' env') = st'
  /\ ~ valid_fragment_fits.
Proof.
  cbv zeta.
  split; [vm_compute; reflexivity|]. split; [vm_compute; reflexivity|].
  split; [vm_compute; reflexivity|]. split; [vm_compute; reflexivity|].
  intros H.
  destruct (H "-10,200,-5,250" env0 initialState
              {| bbox_source := None; layers := []; fitBounds_calls := [] |}
              "-10" "200" "-5" "250") as (_ & _ & F);
    try (vm_compute; reflexivity).
  vm_compute in F. discriminate F.
Qed.

(** C4, amended: a fragment of four components that all convert to numbers
    replaces the box with the corners in fragment order and sets the flag,
    leaving the rest of the state; when the longitudes are finite and the
    latitudes within [[-90, 90]], the next render of a mounted map consumes
    the flag by one [fitBounds] call on the southwest and northeast corners
    of that box. *)
Theorem C4_valid_fragment_replaces_box
  (fragment : string) (env : Env) (st : State) (map : MapGL)
  (c1 c2 c3 c4 : string) :
  split "," fragment = [c1; c2; c3; c4] ->
  isNaN (Number c1) = false -> isNaN (Number c2) = false ->
  isNaN (Number c3) = false -> isNaN (Number c4) = false ->
  mapRef env = Some map ->
  let env' := navigate (String "#" fragment) env in
  let st' := handleHashChange env' st in
  let lon1 := Number c1 in let lat1 := Number c2 in
  let lon2 := Number c3 in let lat2 := Number c4 in
  boundingBox st' = {| start := Some (lon1, lat1); end_ := Some (lon2, lat2) |}
  /\ fitToBoundsNextRender st' = true
  /\ activeTool st' = activeTool st /\ isDrawing st' = isDrawing st
  /\ mapStyle st' = mapStyle st
  /\ (finite lon1 -> finite lon2 ->
      latitude_in_range lat1 = true -> latitude_in_range lat2 = true ->
      fitToBoundsNextRender (fst (fitToBoundsIfRequested st' env')) = false
      /\ boundingBox (fst (fitToBoundsIfRequested st' env')) = boundingBox st'
      /\ exists map',
           mapRef (snd (fitToBoundsIfRequested st' env')) = Some map'
           /\ fitBounds_calls map'
              = {| southwest := (Math_min lon1 lon2, Math_min lat1 lat2);
                   northeast := (Math_max lon1 lon2, Math_max lat1 lat2);
                   padding := 160; duration := 150 |} :: fitBounds_calls map).
Proof.
  intros Hs H1 H2 H3 H4 Hm env' st' lon1 lat1 lon2 lat2.
  assert (st' = setFitToBoundsNextRender true
                  (setBoundingBox {| start := Some (lon1, lat1);
                                     end_ := Some (lon2, lat2) |} st)) as E
    by (apply (handleHashChange_accepts _ env st c1 c2 c3 c4 []); assumption).
  rewrite E. do 5 (split; [reflexivity|]).
  intros _ _ L1 L2.
  pose proof (fitBounds_returns_box (lon1, lat1) (lon2, lat2) 160 150
                H1 H2 H3 H4 L1 L2) as R. cbn [fst snd] in R.
  unfold fitToBoundsIfRequested.
  cbn [fitToBoundsNextRender boundingBox start end_ setFitToBoundsNextRender
         setBoundingBox mapRef navigate env' fst snd].
  rewrite Hm. cbv zeta. cbn [fst snd].
  unfold FIT_BOUNDS_PADDING, FIT_BOUNDS_ANIMATION_DURATION_MS. rewrite R.
  cbn [fst snd fitToBoundsNextRender boundingBox setFitToBoundsNextRender mapRef].
  split; [reflexivity|]. split; [reflexivity|].
  eexists. split; reflexivity.
Qed.

(** The fragment [-10,20,-5,25] of the specification: the box is displayed
    as [-10,20,-5,25] and the map is asked to fit longitudes [-10,-5] and
    latitudes [20,25]. *)
Lemma C4_valid_fragment_replaces_box_witness :
  let env' := navigate "#-10,20,-5,25" env0 in
  let st' := handleHashChange env' initialState in
  (boundingBox st' = {| start := Some (int (-10), int 20);
                        end_ := Some (int (-5), int 25) |}
   /\ fitToBoundsNextRender st' = true
   /\ fitToBoundsNextRender (fst (fitToBoundsIfRequested st' env')) = false
   /\ exists map',
        mapRef (snd (fitToBoundsIfRequested st' env')) = Some map'
        /\ fitBounds_calls map'
           = [ {| southwest := (int (-10), int 20); northeast := (int (-5), int 25);
                  padding := 160; duration := 150 |} ])
  /\ getFormattedBoundingBox st' = "-10,20,-5,25"%string.
Proof.
  split; [|vm_compute; reflexivity].
  assert (finite (Number "-10")) as F1 by (vm_compute; split; [discriminate | reflexivity]).
  assert (finite (Number "-5")) as F2 by (vm_compute; split; [discriminate | reflexivity]).
  assert (latitude_in_range (Number "20") = true) as L1 by (vm_compute; reflexivity).
  assert (latitude_in_range (Number "25") = true) as L2 by (vm_compute; reflexivity).
  destruct (C4_valid_fragment_replaces_box "-10,20,-5,25" env0 initialState
              {| bbox_source := None; layers := []; fitBounds_calls := [] |}
              "-10" "20" "-5" "25")
    as (Hb & Hf & _ & _ & _ & Hr);
    try (vm_compute; reflexivity).
  destruct (Hr F1 F2 L1 L2) as (Hc & _ & map' & Hm & Hl).
  split; [vm_compute in Hb; vm_compute; exact Hb|].
  split; [exact Hf|].
  split; [exact Hc|].
  exists map'. split; [exact Hm|].
  rewrite Hl. vm_compute. reflexivity.
Defined.

(** ** The drag handlers *)

(** The end-drag transition fires when the guard of [handleMouseUp] lets
    the event through. *)
Lemma guard_passes st :
  notDrawingRectangle st = false ->
  activeTool st = rectangle /\ isDrawing st = true
  /\ exists p, start (boundingBox st) = Some p.
Proof.
  unfold notDrawingRectangle. intros H.
  apply orb_false_elim in H as [H Hs]. apply orb_false_elim in H as [Ht Hd].
  repeat split.
  - destruct (activeTool st); [discriminate | reflexivity].
  - destruct (isDrawing st); [reflexivity | discriminate].
  - destruct (start (boundingBox st)); [eauto | discriminate].
Qed.

Lemma guard_passes_intro st p :
  activeTool st = rectangle -> isDrawing st = true ->
  start (boundingBox st) = Some p -> notDrawingRectangle st = false.
Proof. unfold notDrawingRectangle. intros -> -> ->. reflexivity. Qed.

(** A path or a query has no [#]: the fragment starts at the first one. *)
Lemma url_hash_app p r :
  all_chars not_hash p = true -> url_hash (p ++ r) = url_hash r.
Proof.
  induction p as [|c t IH]; [reflexivity|]. cbn [all_chars append url_hash].
  intros H. apply andb_true_iff in H as [Hc Ht]. apply negb_true_iff in Hc.
  rewrite Hc. apply IH, Ht.
Qed.

Lemma join4_truthy a b c d : truthy (join "," [a; b; c; d]) = true.
Proof. destruct a; reflexivity. Qed.

(** [location.hash] after [updateURL]: empty for no box, else [#] and the
    formatted box, percent-encoded. *)
Lemma updateURL_hash start0 end0 env :
  all_chars not_hash (pathname (location (window env))) = true ->
  all_chars not_hash (search (location (window env))) = true ->
  hash (location (window (updateURL start0 end0 env)))
  = let bboxString := formatBoundingBox start0 end0 noOptions in
    if truthy bboxString then String "#" (fragment_encode bboxString)
    else EmptyString.
Proof.
  intros Hp Hs. unfold updateURL, pushState. cbn [window location hash].
  rewrite !url_hash_app by assumption. reflexivity.
Qed.

(** The characters that the URL parser leaves as they are in a fragment. *)
Lemma fragment_encode_id s :
  all_chars (fun c => negb (fragment_percent_encode_set c)) s = true ->
  fragment_encode s = s.
Proof.
  induction s as [|c r IH]; [reflexivity|]. cbn [all_chars fragment_encode].
  intros H. apply andb_true_iff in H as [Hc Hr]. apply negb_true_iff in Hc.
  rewrite Hc, (IH Hr). reflexivity.
Qed.

(** C5 fails as worded: pressing [h] in the middle of a drag leaves the
    controller drawing with the hand tool active, and there the guard of
    [handleMouseUp] drops the pointer-up event, on the stored start as
    anywhere else: the box keeps its start and nothing is written to the
    URL. *)
Lemma C5_counterexample :
  let s := run [noMod "r"; mousedown (int 151, int (-33)); noMod "h"] (mount env0) in
  isDrawing (fst s) = true
  /\ start (boundingBox (fst s)) = Some (int 151, int (-33))
  /\ handleMouseUp (int 151, int (-33)) (fst s) (snd s) = s
  /\ history (window (snd s)) = []
  /\ ~ degenerate_drag_always_resets.
Proof.
  cbv zeta.
  set (s := run _ _).
  assert (s = ({| activeTool := hand;
                  boundingBox := {| start := Some (int 151, int (-33));
                                    end_ := None |};
                  isDrawing := true;
                  fitToBoundsNextRender := false;
                  mapStyle := streets |}, env0)) as E by (vm_compute; reflexivity).
  clearbody s. subst s. cbn [fst snd].
  assert (strict_eq (int 151) (int 151) = true) as H1 by (vm_compute; reflexivity).
  assert (strict_eq (int (-33)) (int (-33)) = true) as H2 by (vm_compute; reflexivity).
  split; [reflexivity|]. split; [reflexivity|]. split; [reflexivity|].
  split; [reflexivity|].
  intros H.
  specialize (H {| activeTool := hand;
                   boundingBox := {| start := Some (int 151, int (-33));
                                     end_ := None |};
                   isDrawing := true;
                   fitToBoundsNextRender := false;
                   mapStyle := streets |} env0 (int 151, int (-33))
                (int 151, int (-33)) eq_refl eq_refl H1 H2).
  apply (f_equal start) in H. discriminate H.
Qed.

(** C5, amended: when a drag with the rectangle tool still active ends on
    the coordinate it started from ([===] on both components), the box is
    reset to empty, a URL with an empty fragment is pushed, which leaves
    [location.hash] empty, and the fit-to-bounds flag keeps its value. *)
Theorem C5_degenerate_drag_resets
  (st : State) (env : Env) (start0 e : LngLat) :
  activeTool st = rectangle -> isDrawing st = true ->
  start (boundingBox st) = Some start0 ->
  strict_eq (fst start0) (fst e) = true ->
  strict_eq (snd start0) (snd e) = true ->
  let st' := fst (handleMouseUp e st env) in
  let env' := snd (handleMouseUp e st env) in
  boundingBox st' = {| start := None; end_ := None |}
  /\ history (window env')
     = (pathname (location (window env)) ++ search (location (window env)) ++ "#")%string
       :: history (window env)
  /\ (all_chars not_hash (pathname (location (window env))) = true ->
      all_chars not_hash (search (location (window env))) = true ->
      hash (location (window env')) = EmptyString)
  /\ fitToBoundsNextRender st' = fitToBoundsNextRender st.
Proof.
  intros Ht Hd Hs H1 H2. unfold handleMouseUp.
  rewrite (guard_passes_intro st start0 Ht Hd Hs), Hs.
  destruct e as [lon lat]. cbn [fst snd] in *.
  rewrite H1, H2. cbn [andb negb fst snd].
  split; [reflexivity|]. split; [reflexivity|]. split; [|reflexivity].
  intros Hp Hq. rewrite updateURL_hash by assumption. reflexivity.
Qed.

Lemma C5_degenerate_drag_resets_witness :
  let st' := fst (handleMouseUp (int 151, int (-33)) dragging env0) in
  let env' := snd (handleMouseUp (int 151, int (-33)) dragging env0) in
  boundingBox st' = {| start := None; end_ := None |}
  /\ history (window env') = ["/#"%string]
  /\ hash (location (window env')) = EmptyString
  /\ fitToBoundsNextRender st' = false.
Proof.
  assert (strict_eq (int 151) (int 151) = true) as H1 by (vm_compute; reflexivity).
  assert (strict_eq (int (-33)) (int (-33)) = true) as H2 by (vm_compute; reflexivity).
  pose proof (C5_degenerate_drag_resets dragging env0 (int 151, int (-33))
                (int 151, int (-33)) eq_refl eq_refl eq_refl H1 H2) as H.
  cbv zeta in H |- *. destruct H as (Hb & Hh & Hl & Hf).
  split; [exact Hb|]. split; [rewrite Hh; reflexivity|].
  split; [exact (Hl eq_refl eq_refl) | rewrite Hf; reflexivity].
Defined.

(** C8: whenever the end-drag transition fires (the controller is drawing
    with the rectangle tool), the tool is back to [hand] and [isDrawing] is
    off afterwards, for a kept box and for a degenerate one. *)
Theorem C8_tool_back_to_hand (st : State) (env : Env) (e : LngLat) :
  Drawing st -> activeTool st = rectangle ->
  activeTool (fst (handleMouseUp e st env)) = hand
  /\ isDrawing (fst (handleMouseUp e st env)) = false.
Proof.
  intros [Hd Hs] Ht.
  destruct (start (boundingBox st)) as [p|] eqn:E; [|contradiction].
  unfold handleMouseUp. rewrite (guard_passes_intro st p Ht Hd E), E.
  destruct e as [lon lat].
  destruct (strict_eq _ _ && strict_eq _ _); cbn; split; reflexivity.
Qed.

Lemma C8_tool_back_to_hand_witness :
  (activeTool (fst (handleMouseUp (int 150, int (-34)) dragging env0)) = hand
   /\ isDrawing (fst (handleMouseUp (int 150, int (-34)) dragging env0)) = false)
  /\ (activeTool (fst (handleMouseUp (int 151, int (-33)) dragging env0)) = hand
      /\ isDrawing (fst (handleMouseUp (int 151, int (-33)) dragging env0)) = false).
Proof.
  assert (Drawing dragging) as D by (split; [reflexivity | discriminate]).
  split.
  - apply (C8_tool_back_to_hand dragging env0 (int 150, int (-34)) D eq_refl).
  - apply (C8_tool_back_to_hand dragging env0 (int 151, int (-33)) D eq_refl).
Defined.

(** The drag-move transition changes the end of the box only. *)
Lemma handleMouseMove_fires (st : State) (e : LngLat) :
  notDrawingRectangle st = false ->
  handleMouseMove e st
  = setBoundingBox {| start := start (boundingBox st); end_ := Some e |} st.
Proof.
  intros Hg. unfold handleMouseMove. rewrite Hg. destruct e. reflexivity.
Qed.


(** C7 fails as worded: pressing [h] in the middle of a drag leaves the
    controller drawing with the hand tool active, and there the guard of
    [handleMouseMove] drops the pointer-move event. *)
Lemma C7_counterexample :
  let st := fst (run [noMod "r"; mousedown (int 151, int (-33)); noMod "h"]
                   (mount env0)) in
  Drawing st
  /\ handleMouseMove (int 150, int (-34)) st = st
  /\ end_ (boundingBox st) = None
  /\ ~ move_fires_whenever_drawing.
Proof.
  cbv zeta.
  set (st := fst (run _ _)).
  assert (st = {| activeTool := hand;
                  boundingBox := {| start := Some (int 151, int (-33)); end_ := None |};
                  isDrawing := true;
                  fitToBoundsNextRender := false;
                  mapStyle := streets |}) as E by (vm_compute; reflexivity).
  clearbody st. subst st.
  assert (Drawing {| activeTool := hand;
                     boundingBox := {| start := Some (int 151, int (-33));
                                       end_ := None |};
                     isDrawing := true;
                     fitToBoundsNextRender := false;
                     mapStyle := streets |}) as D
    by (split; [reflexivity | discriminate]).
  split; [exact D|]. split; [reflexivity|]. split; [reflexivity|].
  intros H. specialize (H _ (int 150, int (-34)) D).
  apply (f_equal end_) in H. discriminate H.
Qed.

(** C7, amended: while drawing with the rectangle tool active, every
    pointer-move event sets the end of the box to the event's coordinate and
    leaves the start, and the rest of the state, unchanged. *)
Theorem C7_drag_move_updates_end (st : State) (e : LngLat) :
  Drawing st ->
  activeTool st = rectangle ->
  boundingBox (handleMouseMove e st)
  = {| start := start (boundingBox st); end_ := Some e |}
  /\ activeTool (handleMouseMove e st) = activeTool st
  /\ isDrawing (handleMouseMove e st) = isDrawing st
  /\ fitToBoundsNextRender (handleMouseMove e st) = fitToBoundsNextRender st
  /\ mapStyle (handleMouseMove e st) = mapStyle st.
Proof.
  intros [Hd Hs] Ht.
  destruct (start (boundingBox st)) as [p|] eqn:E; [|contradiction].
  rewrite (handleMouseMove_fires st e (guard_passes_intro st p Ht Hd E)).
  rewrite E. repeat split.
Qed.

Lemma C7_drag_move_updates_end_witness :
  boundingBox (handleMouseMove (int 150, int (-34)) dragging)
  = {| start := start (boundingBox dragging); end_ := Some (int 150, int (-34)) |}
  /\ activeTool (handleMouseMove (int 150, int (-34)) dragging) = activeTool dragging
  /\ isDrawing (handleMouseMove (int 150, int (-34)) dragging) = isDrawing dragging
  /\ fitToBoundsNextRender (handleMouseMove (int 150, int (-34)) dragging)
     = fitToBoundsNextRender dragging
  /\ mapStyle (handleMouseMove (int 150, int (-34)) dragging) = mapStyle dragging.
Proof.
  apply (C7_drag_move_updates_end dragging (int 150, int (-34))).
  - split; vm_compute; [reflexivity | discriminate].
  - reflexivity.
Defined.

(** ** The overlay *)

(** C9: on a mounted map, a box with both corners set puts into the source
    the closed ring start, (end.lon, start.lat), end, (start.lon, end.lat),
    start, built from the corners as they are; a box with a corner missing
    replaces the data of an existing source with an empty feature
    collection, and leaves a map without the source as it is. *)
Theorem C9_overlay_geometry (box : BoundingBox) (env : Env) (map : MapGL) :
  mapRef env = Some map ->
  (forall lon1 lat1 lon2 lat2,
      start box = Some (lon1, lat1) -> end_ box = Some (lon2, lat2) ->
      exists map',
        mapRef (renderBoundingBox box env) = Some map'
        /\ bbox_source map'
           = Some (Feature_Polygon
                     [[(lon1, lat1); (lon2, lat1); (lon2, lat2); (lon1, lat2);
                       (lon1, lat1)]]))
  /\ (start box = None \/ end_ box = None ->
      exists map',
        mapRef (renderBoundingBox box env) = Some map'
        /\ bbox_source map'
           = match bbox_source map with
             | Some _ => Some (FeatureCollection [])
             | None => None
             end).
Proof.
  intros Hm. split.
  - intros lon1 lat1 lon2 lat2 Hs He. unfold renderBoundingBox.
    rewrite Hs, He, Hm. eexists. split; [reflexivity|].
    destruct (bbox_source map); reflexivity.
  - intros H. unfold renderBoundingBox. rewrite Hm.
    assert (match bbox_source map with
            | Some _ => {| window := window env;
                           mapRef := Some (setData emptyCollection map) |}
            | None => env
            end
            = {| window := window env;
                 mapRef := Some (match bbox_source map with
                                 | Some _ => setData emptyCollection map
                                 | None => map
                                 end) |}) as R
      by (destruct (bbox_source map); [reflexivity | destruct env; cbn in *; congruence]).
    assert (exists map',
               Some (match bbox_source map with
                     | Some _ => setData emptyCollection map
                     | None => map
                     end) = Some map'
               /\ bbox_source map'
                  = match bbox_source map with
                    | Some _ => Some (FeatureCollection [])
                    | None => None
                    end) as X
      by (eexists; split; [reflexivity|]; destruct (bbox_source map) eqn:E;
          [reflexivity | exact E]).
    destruct H as [H | H]; rewrite H.
    + rewrite R. exact X.
    + destruct (start box) as [[? ?]|]; rewrite R; exact X.
Qed.

(** The overlay of the box dragged from (151, -33) to (150, -34), and its
    removal when the next drag starts. *)
Lemma C9_overlay_geometry_witness :
  let box := {| start := Some (int 151, int (-33));
                end_ := Some (int 150, int (-34)) |} in
  let env1 := renderBoundingBox box env0 in
  (exists map',
      mapRef env1 = Some map'
      /\ bbox_source map'
         = Some (Feature_Polygon
                   [[(int 151, int (-33)); (int 150, int (-33));
                     (int 150, int (-34)); (int 151, int (-34));
                     (int 151, int (-33))]]))
  /\ (exists map',
         mapRef (renderBoundingBox (boundingBox dragging) env1) = Some map'
         /\ bbox_source map' = Some (FeatureCollection [])).
Proof.
  cbv zeta. split.
  - apply (C9_overlay_geometry _ env0 _ eq_refl); reflexivity.
  - set (env1 := renderBoundingBox _ env0).
    assert (exists map1, mapRef env1 = Some map1 /\ bbox_source map1 <> None)
      as (map1 & M1 & S1) by (eexists; split; [reflexivity | discriminate]).
    destruct (C9_overlay_geometry (boundingBox dragging) env1 map1 M1) as [_ P].
    destruct (P (or_intror eq_refl)) as (map' & M & S).
    exists map'. split; [exact M|].
    rewrite S. destruct (bbox_source map1); [reflexivity | contradiction].
Defined.

(** ** Rounding to the nearest Number *)

Section HalfEven.

(** The denominator of the quotient that is rounded to an integer. *)
Variable q : Z.
Hypothesis q_pos : 0 < q.

Lemma rne_scale n c : 0 < c -> rne (n * c) (q * c) = rne n q.
Proof.
  intros Hc. unfold rne.
  rewrite Z.div_mul_cancel_r, Z.mul_mod_distr_r by lia.
  assert ((2 * (n mod q * c) <? q * c) = (2 * (n mod q) <? q)) as ->
    by (destruct (Z.ltb_spec (2 * (n mod q * c)) (q * c)),
                 (Z.ltb_spec (2 * (n mod q)) q); try reflexivity; nia).
  assert ((q * c <? 2 * (n mod q * c)) = (q <? 2 * (n mod q))) as ->
    by (destruct (Z.ltb_spec (q * c) (2 * (n mod q * c))),
                 (Z.ltb_spec q (2 * (n mod q))); try reflexivity; nia).
  reflexivity.
Qed.

Lemma rne_exact k : rne (k * q) q = k.
Proof.
  unfold rne. rewrite Z.div_mul, Z.mod_mul by lia.
  destruct (Z.ltb_spec (2 * 0) q); [reflexivity | lia].
Qed.

Lemma rne_bounds n : n / q <= rne n q <= n / q + 1.
Proof.
  unfold rne.
  destruct (2 * (n mod q) <? q); [lia|].
  destruct (q <? 2 * (n mod q)); [lia|].
  destruct (Z.even (n / q)); lia.
Qed.

Lemma rne_mono n n' : n <= n' -> rne n q <= rne n' q.
Proof.
  intros Hn.
  pose proof (Z.div_le_mono n n' q q_pos Hn) as Hq.
  destruct (Z.eq_dec (n / q) (n' / q)) as [E|NE].
  - assert (n mod q <= n' mod q) as Hr
      by (rewrite (Z.div_mod n q), (Z.div_mod n' q) in Hn by lia;
          rewrite E in Hn; lia).
    unfold rne. rewrite E.
    destruct (Z.ltb_spec (2 * (n mod q)) q), (Z.ltb_spec (2 * (n' mod q)) q);
      try lia.
    + destruct (q <? 2 * (n' mod q)); [lia|]. destruct (Z.even (n' / q)); lia.
    + destruct (Z.ltb_spec q (2 * (n mod q))), (Z.ltb_spec q (2 * (n' mod q)));
        try lia; destruct (Z.even (n' / q)); lia.
  - pose proof (rne_bounds n). pose proof (rne_bounds n'). lia.
Qed.

Lemma rne_upper n k : n <= k * q -> rne n q <= k.
Proof.
  intros H.
  destruct (Z.eq_dec n (k * q)) as [->|NE].
  - unfold rne. rewrite Z.div_mul, Z.mod_mul by lia.
    destruct (Z.ltb_spec (2 * 0) q); lia.
  - assert (n / q < k) by (apply Z.div_lt_upper_bound; lia).
    pose proof (rne_bounds n). lia.
Qed.

Lemma rne_lower n k : k * q <= n -> k <= rne n q.
Proof.
  intros H.
  assert (k <= n / q) by (apply Z.div_le_lower_bound; lia).
  pose proof (rne_bounds n). lia.
Qed.

End HalfEven.

Section Nearest.

(** The denominator of the rational that is rounded to a Number. *)
Variable d : Z.
Hypothesis d_pos : 0 < d.

Lemma binade_nonneg n : 0 <= binade n d.
Proof. unfold binade. lia. Qed.

Lemma ulp_pos n : 0 < d * 2 ^ binade n d.
Proof.
  assert (0 < 2 ^ binade n d)
    by (apply Z.pow_pos_nonneg; [lia | apply binade_nonneg]).
  nia.
Qed.

Lemma binade_scale n c : 0 < c -> binade (n * c) (d * c) = binade n d.
Proof.
  intros Hc. unfold binade.
  replace (n * c * 2 ^ 1100) with (n * 2 ^ 1100 * c) by ring.
  rewrite Z.div_mul_cancel_r by lia. reflexivity.
Qed.

Lemma binade_mono n n' : 0 <= n <= n' -> binade n d <= binade n' d.
Proof.
  intros Hn. unfold binade.
  assert (n * 2 ^ 1100 / d <= n' * 2 ^ 1100 / d)
    by (apply Z.div_le_mono; [lia | nia]).
  pose proof (Z.log2_le_mono _ _ H). lia.
Qed.

(** In its binade the quotient is below [2^53] units in the last place. *)
Lemma binade_upper n :
  0 <= n -> n * 2 ^ 1074 < 2 ^ 53 * (d * 2 ^ binade n d).
Proof.
  intros Hn. set (Q := n * 2 ^ 1100 / d).
  assert (0 <= Q) as HQ by (apply Z.div_pos; lia).
  assert (Q < 2 ^ (binade n d + 79)) as HQu.
  { unfold binade. fold Q. destruct (Z.eq_dec Q 0) as [->|NZ].
    - apply Z.pow_pos_nonneg; lia.
    - destruct (Z.log2_spec Q) as [_ Hu]; [lia|].
      eapply Z.lt_le_trans; [exact Hu|].
      apply Z.pow_le_mono_r; lia. }
  assert (n * 2 ^ 1100 < 2 ^ (binade n d + 79) * d) as H.
  { pose proof (Z.mul_succ_div_gt (n * 2 ^ 1100) d d_pos) as G. fold Q in G. nia. }
  pose proof (binade_nonneg n). pose proof (ulp_pos n).
  rewrite Z.pow_add_r in H by lia.
  change (2 ^ 1100) with (2 ^ 1074 * 2 ^ 26) in H.
  change (2 ^ 79) with (2 ^ 53 * 2 ^ 26) in H.
  nia.
Qed.

(** Above the lowest binade it is at least [2^52] units in the last place. *)
Lemma binade_lower n :
  0 <= n -> 0 < binade n d -> 2 ^ 52 * (d * 2 ^ binade n d) <= n * 2 ^ 1074.
Proof.
  intros Hn Ht. set (Q := n * 2 ^ 1100 / d).
  assert (binade n d = Z.log2 Q - 78) as E
    by (unfold binade in *; fold Q in Ht |- *; lia).
  assert (0 < Q) as HQ.
  { destruct (Z.le_gt_cases Q 0) as [L|G]; [|exact G].
    rewrite (Z.log2_nonpos Q L) in E. lia. }
  destruct (Z.log2_spec Q HQ) as [Hl _].
  assert (Q * d <= n * 2 ^ 1100) as H
    by (rewrite Z.mul_comm; apply Z.mul_div_le; lia).
  replace (Z.log2 Q) with (binade n d + 78) in Hl by lia.
  rewrite Z.pow_add_r in Hl by lia.
  change (2 ^ 1100) with (2 ^ 1074 * 2 ^ 26) in H.
  change (2 ^ 78) with (2 ^ 52 * 2 ^ 26) in Hl.
  pose proof (ulp_pos n). nia.
Qed.

Lemma nearest_range n : 0 <= n -> 0 <= nearest n d <= INF.
Proof.
  intros Hn. unfold nearest. pose proof (binade_nonneg n) as Ht.
  assert (0 <= rne (n * 2 ^ 1074) (d * 2 ^ binade n d))
    by (apply rne_lower; [apply ulp_pos | lia]).
  assert (0 < FRAC) by reflexivity. assert (0 < INF) by reflexivity. nia.
Qed.

(** The Number nearest to a larger rational is not smaller. *)
Lemma nearest_mono n n' : 0 <= n <= n' -> nearest n d <= nearest n' d.
Proof.
  intros Hn. unfold nearest. apply Z.min_le_compat_l.
  pose proof (binade_mono n n' Hn) as Ht.
  pose proof (binade_nonneg n) as H0.
  destruct (Z.eq_dec (binade n d) (binade n' d)) as [E|NE].
  - rewrite E. apply Z.add_le_mono_r. apply rne_mono; [apply ulp_pos | nia].
  - assert (rne (n * 2 ^ 1074) (d * 2 ^ binade n d) <= 2 ^ 53)
      by (apply rne_upper;
          [apply ulp_pos | pose proof (binade_upper n ltac:(lia)); lia]).
    assert (2 ^ 52 <= rne (n' * 2 ^ 1074) (d * 2 ^ binade n' d))
      by (apply rne_lower; [apply ulp_pos | apply binade_lower; lia]).
    unfold FRAC. change (2 ^ 53) with (2 * 2 ^ 52) in *. nia.
Qed.

(** Writing the rational with a common factor does not change the Number
    nearest to it. *)
Lemma nearest_scale n c : 0 < c -> nearest (n * c) (d * c) = nearest n d.
Proof.
  intros Hc. unfold nearest. rewrite binade_scale by assumption.
  replace (n * c * 2 ^ 1074) with (n * 2 ^ 1074 * c) by ring.
  replace (d * c * 2 ^ binade n d) with (d * 2 ^ binade n d * c) by ring.
  rewrite rne_scale; [reflexivity | apply ulp_pos | assumption].
Qed.

End Nearest.

(** ** Rounding to 6 decimals *)

Lemma FRAC_pos : 0 < FRAC.
Proof. reflexivity. Qed.

(** The encoding orders the magnitudes as their values. *)
Lemma scaled_mono m m' : 0 <= m <= m' -> scaled m <= scaled m'.
Proof.
  intros H. unfold scaled, significand, biased.
  pose proof FRAC_pos as HF.
  assert (0 <= m / FRAC) as Hb by (apply Z.div_pos; lia).
  assert (m / FRAC <= m' / FRAC) as Hbb by (apply Z.div_le_mono; lia).
  pose proof (Z.mod_pos_bound m FRAC HF) as Hf.
  pose proof (Z.mod_pos_bound m' FRAC HF) as Hf'.
  pose proof (Z.div_mod m FRAC ltac:(lia)) as Em.
  pose proof (Z.div_mod m' FRAC ltac:(lia)) as Em'.
  destruct (Z.eq_dec (m / FRAC) (m' / FRAC)) as [E|NE].
  - rewrite <- E in *.
    assert (m mod FRAC <= m' mod FRAC) by lia.
    assert (0 < 2 ^ (Z.max (m / FRAC) 1 - 1)) by (apply Z.pow_pos_nonneg; lia).
    destruct (m / FRAC =? 0); nia.
  - assert ((m' / FRAC =? 0) = false) as -> by (apply Z.eqb_neq; lia).
    replace (Z.max (m' / FRAC) 1 - 1) with (m' / FRAC - 1) by lia.
    destruct (Z.eqb_spec (m / FRAC) 0) as [Z0|NZ].
    + rewrite Z0. change (2 ^ (Z.max 0 1 - 1)) with 1.
      assert (0 < 2 ^ (m' / FRAC - 1)) by (apply Z.pow_pos_nonneg; lia).
      nia.
    + replace (Z.max (m / FRAC) 1 - 1) with (m / FRAC - 1) by lia.
      replace (m' / FRAC - 1) with ((m / FRAC - 1) + (m' / FRAC - m / FRAC)) by lia.
      rewrite Z.pow_add_r by lia.
      assert (0 < 2 ^ (m / FRAC - 1)) by (apply Z.pow_pos_nonneg; lia).
      assert (2 <= 2 ^ (m' / FRAC - m / FRAC))
        by (change 2 with (2 ^ 1) at 1; apply Z.pow_le_mono_r; lia).
      nia.
Qed.

Lemma scaled_nonneg m : 0 <= m -> 0 <= scaled m.
Proof.
  intros H. change 0 with (scaled 0) at 1. apply scaled_mono. lia.
Qed.

Lemma binade_exact n : 0 <= n -> binade n (2 ^ 1074) = Z.max 0 (Z.log2 n - 52).
Proof.
  intros Hn. unfold binade.
  change (2 ^ 1100) with (2 ^ 26 * 2 ^ 1074).
  rewrite Z.mul_assoc, Z.div_mul by discriminate.
  destruct (Z.eq_dec n 0) as [->|NZ]; [reflexivity|].
  rewrite Z.log2_mul_pow2 by lia. lia.
Qed.

(** A finite Number is the Number nearest to its own value. *)
Lemma nearest_exact m : 0 <= m < INF -> nearest (scaled m) (2 ^ 1074) = m.
Proof.
  intros [H0 H1]. unfold nearest.
  pose proof FRAC_pos as HF.
  assert (0 <= m / FRAC) as Hb by (apply Z.div_pos; lia).
  pose proof (Z.mod_pos_bound m FRAC HF) as Hf.
  pose proof (Z.div_mod m FRAC ltac:(lia)) as Em.
  rewrite (binade_exact _ (scaled_nonneg m H0)).
  unfold scaled, significand, biased.
  destruct (Z.eqb_spec (m / FRAC) 0) as [Z0|NZ].
  - rewrite Z0. change (2 ^ (Z.max 0 1 - 1)) with 1. rewrite Z.mul_1_r.
    assert (Z.max 0 (Z.log2 (m mod FRAC) - 52) = 0) as ->.
    { destruct (Z.eq_dec (m mod FRAC) 0) as [->|N0]; [reflexivity|].
      assert (Z.log2 (m mod FRAC) < 52) by (apply Z.log2_lt_pow2; unfold FRAC in *; lia).
      lia. }
    change (2 ^ 1074 * 2 ^ 0) with (2 ^ 1074).
    rewrite rne_exact by reflexivity. lia.
  - set (b := m / FRAC) in *. set (f := m mod FRAC) in *.
    replace (Z.max b 1 - 1) with (b - 1) by lia.
    assert (0 < 2 ^ (b - 1)) as Hp by (apply Z.pow_pos_nonneg; lia).
    assert (Z.log2 (FRAC + f) = 52) as L
      by (apply Z.log2_unique; unfold FRAC in *; [lia | change (2 ^ Z.succ 52) with (2 * 2 ^ 52); lia]).
    rewrite Z.log2_mul_pow2, L by lia.
    replace (Z.max 0 (b - 1 + 52 - 52)) with (b - 1) by lia.
    replace ((FRAC + f) * 2 ^ (b - 1) * 2 ^ 1074)
      with ((FRAC + f) * (2 ^ 1074 * 2 ^ (b - 1))) by ring.
    rewrite rne_exact by (assert (0 < 2 ^ 1074) by reflexivity; nia).
    nia.
Qed.

(** The Number nearest to a larger rational is not smaller, whatever the
    denominators. *)
Lemma nearest_le_cross n d n' d' :
  0 <= n -> 0 < d -> 0 < d' -> n * d' <= n' * d -> nearest n d <= nearest n' d'.
Proof.
  intros Hn Hd Hd' H.
  rewrite <- (nearest_scale d Hd n d' Hd'), <- (nearest_scale d' Hd' n' d Hd).
  rewrite (Z.mul_comm d' d). apply nearest_mono; nia.
Qed.

Lemma decimal_spec c e : 0 <= c -> 0 <= fst (decimal c e) /\ 0 < snd (decimal c e).
Proof.
  intros Hc. unfold decimal. destruct (Z.ltb_spec e 0); cbn [fst snd].
  - split; [exact Hc | apply Z.pow_pos_nonneg; lia].
  - split; [|reflexivity]. apply Z.mul_nonneg_nonneg; [exact Hc | apply Z.pow_nonneg; lia].
Qed.

Lemma candidate_spec m p k x :
  0 <= m -> candidate m p k = Some x ->
  0 <= fst x /\ 0 < snd x /\ nearest (fst x) (snd x) = m.
Proof.
  intros Hm. unfold candidate. cbv zeta.
  set (e := p - k + 1).
  set (a := if e <? 0 then scaled m * 10 ^ (- e) else scaled m).
  set (b := if e <? 0 then 2 ^ 1074 else 2 ^ 1074 * 10 ^ e).
  pose proof (scaled_nonneg m Hm) as HS.
  assert (0 <= a) as Ha.
  { unfold a. destruct (e <? 0); [|exact HS].
    apply Z.mul_nonneg_nonneg; [exact HS | apply Z.pow_nonneg; lia]. }
  assert (0 < b) as Hb.
  { unfold b. destruct (Z.ltb_spec e 0); [reflexivity|].
    apply Z.mul_pos_pos; [reflexivity | apply Z.pow_pos_nonneg; lia]. }
  assert (0 <= a / b) as Hq by (apply Z.div_pos; assumption).
  assert (0 <= rne a b) as Hc by (apply rne_lower; lia).
  unfold reads_as.
  destruct (Z.eqb_spec (nearest (fst (decimal (rne a b) e)) (snd (decimal (rne a b) e))) m)
    as [E|_].
  - intros [= <-]. destruct (decimal_spec (rne a b) e Hc). auto.
  - set (c' := if rne a b =? a / b then a / b + 1 else a / b).
    assert (0 <= c') as Hc' by (unfold c'; destruct (_ =? _); lia).
    destruct (Z.eqb_spec (nearest (fst (decimal c' e)) (snd (decimal c' e))) m) as [E|_];
      [|discriminate].
    intros [= <-]. destruct (decimal_spec c' e Hc'). auto.
Qed.

Lemma shortest_from_spec fuel m p k :
  0 <= m < INF ->
  0 <= fst (shortest_from fuel m p k) /\ 0 < snd (shortest_from fuel m p k)
  /\ nearest (fst (shortest_from fuel m p k)) (snd (shortest_from fuel m p k)) = m.
Proof.
  intros Hm. revert k. induction fuel as [|f IH]; intros k; cbn [shortest_from].
  - cbn [fst snd]. split; [apply scaled_nonneg; lia|].
    split; [reflexivity | apply nearest_exact, Hm].
  - destruct (candidate m p k) as [x|] eqn:E; [|apply IH].
    apply (candidate_spec m p k x); [lia | exact E].
Qed.

(** The decimal that [shortest] gives for a finite Number reads back as that
    Number. *)
Lemma shortest_spec m :
  0 <= m < INF ->
  0 <= fst (shortest m) /\ 0 < snd (shortest m)
  /\ nearest (fst (shortest m)) (snd (shortest m)) = m.
Proof.
  intros Hm. unfold shortest. destruct (Z.eqb_spec m 0) as [->|NZ].
  - cbn [fst snd]. repeat split; try lia.
  - apply shortest_from_spec, Hm.
Qed.

Lemma div_le_cross a b a' b' :
  0 < b -> 0 < b' -> a * b' <= a' * b -> a / b <= a' / b'.
Proof.
  intros Hb Hb' H.
  rewrite <- (Z.div_mul_cancel_r a b b'), <- (Z.div_mul_cancel_r a' b' b) by lia.
  rewrite (Z.mul_comm b' b). apply Z.div_le_mono; nia.
Qed.

Lemma micro_mono m m' : 0 <= m <= m' -> m' < INF -> micro m <= micro m'.
Proof.
  intros H H'. destruct (Z.eq_dec m m') as [->|NE]; [reflexivity|].
  unfold micro.
  destruct (shortest_spec m ltac:(lia)) as (Hn & Hd & E).
  destruct (shortest_spec m' ltac:(lia)) as (Hn' & Hd' & E').
  destruct (shortest m) as [n d], (shortest m') as [n' d']. cbn [fst snd] in *.
  assert (n * d' <= n' * d) as C.
  { destruct (Z.le_gt_cases (n * d') (n' * d)) as [L|G]; [exact L|].
    pose proof (nearest_le_cross n' d' n d Hn' Hd' Hd ltac:(lia)). lia. }
  apply div_le_cross; nia.
Qed.

Lemma micro_nonneg m : 0 <= m < INF -> 0 <= micro m.
Proof.
  intros H. unfold micro.
  destruct (shortest_spec m H) as (Hn & Hd & _).
  destruct (shortest m) as [n d]. cbn [fst snd] in *.
  apply Z.div_pos; nia.
Qed.


Lemma round6_Num s m : round6 (Num s m) = Num s (round6_mag m).
Proof. unfold round6, round6_mag. destruct (INF <=? m); reflexivity. Qed.

Lemma round6_mag_range m : 0 <= m <= INF -> 0 <= round6_mag m <= INF.
Proof.
  intros H. unfold round6_mag. destruct (Z.leb_spec INF m); [lia|].
  apply nearest_range; [reflexivity | apply micro_nonneg; lia].
Qed.

Lemma round6_mag_mono m m' :
  0 <= m <= m' -> m' <= INF -> round6_mag m <= round6_mag m'.
Proof.
  intros H H'. unfold round6_mag.
  destruct (Z.leb_spec INF m), (Z.leb_spec INF m'); try lia.
  - pose proof (nearest_range (10 ^ 6) eq_refl (micro m) (micro_nonneg m ltac:(lia))).
    lia.
  - apply nearest_mono; [reflexivity|].
    split; [apply micro_nonneg; lia | apply micro_mono; lia].
Qed.

Lemma round6_is_number x : is_number x -> is_number (round6 x).
Proof.
  destruct x as [|s m]; [tauto|]. rewrite round6_Num. simpl.
  apply round6_mag_range.
Qed.

Lemma round6_key_mono s m s' m' :
  0 <= m <= INF -> 0 <= m' <= INF ->
  key s m <= key s' m' -> key s (round6_mag m) <= key s' (round6_mag m').
Proof.
  intros Hm Hm' Hk.
  pose proof (round6_mag_range m Hm). pose proof (round6_mag_range m' Hm').
  unfold key in *. destruct s, s'; try lia.
  - assert (round6_mag m' <= round6_mag m) by (apply round6_mag_mono; lia). lia.
  - apply round6_mag_mono; lia.
Qed.

(** Rounding to 6 decimals commutes with [Math.min] and [Math.max]. *)
Lemma round6_Math_min a b :
  is_number a -> is_number b ->
  Math_min (round6 a) (round6 b) = round6 (Math_min a b).
Proof.
  destruct a as [|s m], b as [|s' m']; try (simpl; tauto). intros Ha Hb.
  simpl in Ha, Hb. rewrite !round6_Num. simpl.
  pose proof (round6_mag_range m Ha). pose proof (round6_mag_range m' Hb).
  destruct (Z.leb_spec (key s m) (key s' m')) as [L|G].
  - rewrite round6_Num.
    pose proof (round6_key_mono s m s' m' Ha Hb L) as K.
    apply Z.leb_le in K. rewrite K. reflexivity.
  - rewrite round6_Num.
    pose proof (round6_key_mono s' m' s m Hb Ha ltac:(lia)) as K.
    destruct (Z.leb_spec (key s (round6_mag m)) (key s' (round6_mag m'))); [|reflexivity].
    destruct (key_inj s (round6_mag m) s' (round6_mag m')) as [-> ->]; try lia.
    reflexivity.
Qed.

Lemma round6_Math_max a b :
  is_number a -> is_number b ->
  Math_max (round6 a) (round6 b) = round6 (Math_max a b).
Proof.
  destruct a as [|s m], b as [|s' m']; try (simpl; tauto). intros Ha Hb.
  simpl in Ha, Hb. rewrite !round6_Num. simpl.
  pose proof (round6_mag_range m Ha). pose proof (round6_mag_range m' Hb).
  destruct (Z.leb_spec (key s m) (key s' m')) as [L|G].
  - rewrite round6_Num.
    pose proof (round6_key_mono s m s' m' Ha Hb L) as K.
    apply Z.leb_le in K. rewrite K. reflexivity.
  - rewrite round6_Num.
    pose proof (round6_key_mono s' m' s m Hb Ha ltac:(lia)) as K.
    destruct (Z.leb_spec (key s (round6_mag m)) (key s' (round6_mag m'))); [|reflexivity].
    destruct (key_inj s (round6_mag m) s' (round6_mag m')) as [-> ->]; try lia.
    reflexivity.
Qed.

Lemma Math_min_is_number a b : is_number a -> is_number b -> is_number (Math_min a b).
Proof.
  destruct a as [|s m], b as [|s' m']; simpl; try tauto.
  destruct (key s m <=? key s' m'); simpl; tauto.
Qed.

Lemma Math_max_is_number a b : is_number a -> is_number b -> is_number (Math_max a b).
Proof.
  destruct a as [|s m], b as [|s' m']; simpl; try tauto.
  destruct (key s m <=? key s' m'); simpl; tauto.
Qed.

Lemma Math_min_finite a b : finite a -> finite b -> finite (Math_min a b).
Proof.
  destruct a as [|s m], b as [|s' m']; simpl; try tauto.
  destruct (key s m <=? key s' m'); simpl; tauto.
Qed.

Lemma Math_max_finite a b : finite a -> finite b -> finite (Math_max a b).
Proof.
  destruct a as [|s m], b as [|s' m']; simpl; try tauto.
  destruct (key s m <=? key s' m'); simpl; tauto.
Qed.

(** [Math.min] and [Math.max] of an ordered pair. *)
Lemma Math_min_max_idem a b :
  is_number a -> is_number b ->
  Math_min (Math_min a b) (Math_max a b) = Math_min a b
  /\ Math_max (Math_min a b) (Math_max a b) = Math_max a b.
Proof.
  destruct a as [|s m], b as [|s' m']; simpl; try tauto. intros Ha Hb.
  destruct (Z.leb_spec (key s m) (key s' m')) as [L|G]; simpl.
  - apply Z.leb_le in L. rewrite L. split; reflexivity.
  - destruct (Z.leb_spec (key s' m') (key s m)); [split; reflexivity | lia].
Qed.

(** ** Digits written and read back *)

Lemma all_chars_app p s t :
  all_chars p (s ++ t) = all_chars p s && all_chars p t.
Proof.
  induction s as [|c r IH]; simpl; [reflexivity|].
  rewrite IH, andb_assoc. reflexivity.
Qed.

Lemma all_chars_weaken (p q : ascii -> bool) s :
  (forall c, p c = true -> q c = true) -> all_chars p s = true -> all_chars q s = true.
Proof.
  intros H. induction s as [|c r IH]; simpl; [reflexivity|].
  intros E. apply andb_true_iff in E as [E1 E2].
  rewrite (H c E1), (IH E2). reflexivity.
Qed.

Lemma digit_char_spec d :
  0 <= d < 10 ->
  is_digit (digit_char d) = true /\ digit_in 10 (digit_char d) = Some d.
Proof.
  intros H.
  assert (d = 0 \/ d = 1 \/ d = 2 \/ d = 3 \/ d = 4 \/ d = 5 \/ d = 6 \/ d = 7
          \/ d = 8 \/ d = 9) as E by lia.
  repeat (destruct E as [-> | E]; [split; reflexivity|]).
  subst d. split; reflexivity.
Qed.

Lemma is_digit_digit_char d : 0 <= d < 10 -> is_digit (digit_char d) = true.
Proof. intros H. apply digit_char_spec, H. Qed.

Lemma digits_value_app base a s t :
  digits_value base a (s ++ t)
  = match digits_value base a s with
    | Some v => digits_value base v t
    | None => None
    end.
Proof.
  revert a. induction s as [|c r IH]; intros a; simpl; [reflexivity|].
  destruct (digit_in base c); [apply IH | reflexivity].
Qed.

Lemma digits_of_app fuel n acc r :
  digits_of fuel n (acc ++ r) = (digits_of fuel n acc ++ r)%string.
Proof.
  revert n acc. induction fuel as [|f IH]; intros n acc; simpl; [reflexivity|].
  destruct (n <? 10); [reflexivity|].
  apply (IH (n / 10) (String (digit_char (n mod 10)) acc)).
Qed.

Lemma digits_of_all_digits fuel n acc :
  0 <= n -> all_chars is_digit acc = true ->
  all_chars is_digit (digits_of fuel n acc) = true.
Proof.
  revert n acc. induction fuel as [|f IH]; intros n acc Hn Ha; simpl; [exact Ha|].
  assert (all_chars is_digit (String (digit_char (n mod 10)) acc) = true) as H.
  { simpl. rewrite Ha, is_digit_digit_char; [reflexivity|].
    apply Z.mod_pos_bound. lia. }
  destruct (n <? 10); [exact H|].
  apply IH; [apply Z.div_pos; lia | exact H].
Qed.

Lemma digits_of_truthy fuel n acc :
  truthy acc = true \/ (0 < fuel)%nat -> truthy (digits_of fuel n acc) = true.
Proof.
  revert n acc. induction fuel as [|f IH]; intros n acc H; simpl.
  - destruct H; [assumption | lia].
  - destruct (n <? 10); [reflexivity|]. apply IH. left. reflexivity.
Qed.

(** Reading the digits written for [n] in front of [acc] is reading [acc]
    from [n]. *)
Lemma digits_of_value fuel n acc :
  0 <= n -> (Z.to_nat (Z.log2 n) < fuel)%nat ->
  digits_value 10 0 (digits_of fuel n acc) = digits_value 10 n acc.
Proof.
  revert n acc. induction fuel as [|f IH]; intros n acc Hn Hf; [lia|]. simpl.
  assert (0 <= n mod 10 < 10) as Hd by (apply Z.mod_pos_bound; lia).
  destruct (Z.ltb_spec n 10) as [L|G].
  - simpl. destruct (digit_char_spec _ Hd) as [_ ->].
    rewrite Z.mod_small by lia. reflexivity.
  - rewrite IH.
    + simpl. destruct (digit_char_spec _ Hd) as [_ ->].
      replace (n / 10 * 10 + n mod 10) with n
        by (pose proof (Z.div_mod n 10 ltac:(lia)); lia).
      reflexivity.
    + apply Z.div_pos; lia.
    + assert (Z.log2 (n / 10) < Z.log2 n); [|pose proof (Z.log2_nonneg (n / 10)); lia].
      assert (0 < n / 10) by (apply Z.div_str_pos; lia).
      apply Z.log2_lt_pow2; [assumption|].
      destruct (Z.log2_spec n ltac:(lia)) as [_ Hu].
      rewrite Z.pow_succ_r in Hu by apply Z.log2_nonneg.
      apply Z.div_lt_upper_bound; lia.
Qed.

Lemma decimal_digits_spec n :
  0 <= n ->
  all_chars is_digit (decimal_digits n) = true
  /\ truthy (decimal_digits n) = true
  /\ forall r, digits_value 10 0 (decimal_digits n ++ r) = digits_value 10 n r.
Proof.
  intros Hn. unfold decimal_digits. repeat split.
  - apply digits_of_all_digits; [exact Hn | reflexivity].
  - apply digits_of_truthy. right. lia.
  - intros r. rewrite <- (digits_of_app _ n EmptyString r).
    change (EmptyString ++ r)%string with r.
    apply digits_of_value; [exact Hn | lia].
Qed.

(** The fraction digits of [f < 10^k] are [j <= k] digits whose value is
    [f] without its [k - j] zeros at the end. *)
Lemma fraction_digits_spec k f :
  0 <= f < 10 ^ Z.of_nat k ->
  all_chars is_digit (fraction_digits k f) = true
  /\ (String.length (fraction_digits k f) <= k)%nat
  /\ (f <> 0 -> truthy (fraction_digits k f) = true)
  /\ forall a, exists v,
       digits_value 10 a (fraction_digits k f) = Some v
       /\ v * 10 ^ (Z.of_nat k - Z.of_nat (String.length (fraction_digits k f)))
          = a * 10 ^ Z.of_nat k + f.
Proof.
  revert f. induction k as [|k IH]; intros f Hf.
  - simpl in *. repeat split; try lia.
    intros a. exists a. split; [reflexivity|]. change (10 ^ (0 - 0)) with 1. lia.
  - cbn [fraction_digits]. destruct (Z.eqb_spec f 0) as [->|NZ].
    + simpl String.length. repeat split; try lia; try reflexivity.
      intros a. exists a. split; [reflexivity|].
      rewrite Z.sub_0_r. lia.
    + set (p := 10 ^ Z.of_nat k) in *.
      assert (0 < p) as Hp by (apply Z.pow_pos_nonneg; lia).
      assert (10 ^ Z.of_nat (S k) = 10 * p) as E
        by (rewrite Nat2Z.inj_succ, Z.pow_succ_r by lia; reflexivity).
      rewrite E in Hf.
      assert (0 <= f / p < 10) as Hq
        by (split; [apply Z.div_pos; lia | apply Z.div_lt_upper_bound; lia]).
      assert (0 <= f mod p < p) as Hr by (apply Z.mod_pos_bound; lia).
      destruct (IH (f mod p) Hr) as (A & L & _ & V).
      rewrite (Z.mod_small (f / p) 10) by lia.
      destruct (digit_char_spec _ Hq) as [D1 D2].
      repeat split.
      * simpl. rewrite D1, A. reflexivity.
      * simpl. lia.
      * intros a. simpl digits_value. rewrite D2.
        destruct (V (a * 10 + f / p)) as (v & V1 & V2).
        exists v. split; [exact V1|].
        cbn [String.length]. rewrite E.
        replace (Z.of_nat (S k) - Z.of_nat (S (String.length (fraction_digits k (f mod p)))))
          with (Z.of_nat k - Z.of_nat (String.length (fraction_digits k (f mod p))))
          by lia.
        rewrite V2. pose proof (Z.div_mod f p ltac:(lia)). nia.
Qed.

Lemma span_digits_app s r :
  all_chars is_digit s = true ->
  match r with EmptyString => true | String c _ => negb (is_digit c) end = true ->
  span_digits (s ++ r) = (s, r).
Proof.
  intros Hs Hr. induction s as [|c t IH]; simpl in *.
  - destruct r as [|c r]; [reflexivity|]. simpl.
    apply negb_true_iff in Hr. rewrite Hr. reflexivity.
  - apply andb_true_iff in Hs as [-> Ht]. rewrite (IH Ht). reflexivity.
Qed.

(** ** Reading back what [Intl.NumberFormat] wrote *)

Ltac not_this_char H :=
  match goal with
  | |- Ascii.eqb ?c ?k = false =>
      destruct (Ascii.eqb_spec c k) as [->|];
      [vm_compute in H; discriminate H | reflexivity]
  | |- ?p ?c = false =>
      destruct (p c) eqn:?E; [|reflexivity];
      exfalso; revert H E; clear; intros H E;
      unfold is_numeric, is_digit, is_space, code in *;
      destruct c as [[] [] [] [] [] [] [] []]; vm_compute in H, E; congruence
  end.

Lemma is_numeric_not_space c : is_numeric c = true -> is_space c = false.
Proof. intros H. not_this_char H. Qed.

Lemma is_numeric_not_comma c : is_numeric c = true -> Ascii.eqb c "," = false.
Proof. intros H. not_this_char H. Qed.

Lemma is_digit_numeric c : is_digit c = true -> is_numeric c = true.
Proof. intros H. unfold is_numeric. rewrite H. reflexivity. Qed.

Lemma append_empty_r s : (s ++ EmptyString)%string = s.
Proof. induction s as [|c r IH]; simpl; [|rewrite IH]; reflexivity. Qed.

Lemma trim_start_id c r : is_space c = false -> trim_start (String c r) = String c r.
Proof. intros H. simpl. rewrite H. reflexivity. Qed.

Lemma trim_end_id s :
  all_chars (fun c => negb (is_space c)) s = true -> trim_end s = s.
Proof.
  induction s as [|c r IH]; simpl; [reflexivity|]. intros H.
  apply andb_true_iff in H as [Hc Hr]. rewrite (IH Hr).
  apply negb_true_iff in Hc. rewrite Hc. destruct r; reflexivity.
Qed.

Lemma fixed6_numeric n : 0 <= n -> all_chars is_numeric (fixed6 n) = true.
Proof.
  intros Hn. unfold fixed6. rewrite all_chars_app.
  assert (0 <= n / 10 ^ 6) as HI by (apply Z.div_pos; [lia | reflexivity]).
  destruct (decimal_digits_spec _ HI) as (A & _ & _).
  rewrite (all_chars_weaken _ _ _ is_digit_numeric A).
  destruct (n mod 10 ^ 6 =? 0); [reflexivity|]. cbn [all_chars andb].
  assert (0 <= n mod 10 ^ 6 < 10 ^ Z.of_nat 6) as Hf
    by (apply Z.mod_pos_bound; reflexivity).
  destruct (fraction_digits_spec 6 _ Hf) as (B & _).
  change (is_numeric ".") with true. cbn [andb].
  apply (all_chars_weaken _ _ _ is_digit_numeric B).
Qed.

(** A formatted count of millionths starts with a digit, followed by a
    digit or the point. *)
Lemma fixed6_head n :
  0 <= n ->
  exists c r, fixed6 n = String c r /\ is_digit c = true
              /\ all_chars is_numeric r = true
              /\ match r with
                 | EmptyString => True
                 | String c1 _ => is_digit c1 || Ascii.eqb c1 "." = true
                 end.
Proof.
  intros Hn. pose proof (fixed6_numeric n Hn) as N. unfold fixed6 in *.
  assert (0 <= n / 10 ^ 6) as HI by (apply Z.div_pos; [lia | reflexivity]).
  destruct (decimal_digits_spec _ HI) as (A & T & _).
  set (tail := if n mod 10 ^ 6 =? 0 then EmptyString
               else String "." (fraction_digits 6 (n mod 10 ^ 6))) in *.
  assert (match tail with
          | EmptyString => True
          | String c1 _ => is_digit c1 || Ascii.eqb c1 "." = true
          end) as HT
    by (unfold tail; destruct (n mod 10 ^ 6 =? 0); [exact I | reflexivity]).
  destruct (decimal_digits (n / 10 ^ 6)) as [|c r]; [discriminate T|].
  cbn [append all_chars] in A, N |- *. apply andb_true_iff in A as [Ac Ar].
  apply andb_true_iff in N as [_ Nr].
  exists c. eexists. repeat split; [exact Ac | exact Nr |].
  destruct r as [|c1 r]; cbn [append].
  - exact HT.
  - cbn [all_chars] in Ar. apply andb_true_iff in Ar as [-> _]. reflexivity.
Qed.

(** StrUnsignedDecimalLiteral reads a formatted count of millionths as the
    Number nearest to it. *)
Lemma StrUnsignedDecimalLiteral_fixed6 neg n :
  0 <= n ->
  StrUnsignedDecimalLiteral neg (fixed6 n) = Some (Num neg (nearest n (10 ^ 6))).
Proof.
  intros Hn. unfold StrUnsignedDecimalLiteral.
  destruct (fixed6_head n Hn) as (c & r & E & Dc & _).
  assert (String.eqb (fixed6 n) "Infinity" = false) as ->.
  { rewrite E. simpl.
    assert (Ascii.eqb c "I" = false) as -> by not_this_char Dc. reflexivity. }
  clear c r E Dc. unfold fixed6.
  set (I := n / 10 ^ 6). set (f := n mod 10 ^ 6).
  assert (0 <= I) as HI by (apply Z.div_pos; [lia | reflexivity]).
  assert (n = I * 10 ^ 6 + f) as En
    by (pose proof (Z.div_mod n (10 ^ 6) ltac:(discriminate)); unfold I, f; lia).
  destruct (decimal_digits_spec _ HI) as (A & T & V).
  destruct (Z.eqb_spec f 0) as [F0|NZ].
  - rewrite (span_digits_app _ EmptyString A eq_refl), T.
    unfold ExponentPart. rewrite <- (append_empty_r (decimal_digits I)), V.
    simpl digits_value. unfold of_decimal. simpl (0 <=? - 0).
    cbv iota. change (10 ^ (- 0)) with 1. rewrite Z.mul_1_r.
    rewrite En, F0, Z.add_0_r.
    rewrite <- (nearest_scale 1 eq_refl I (10 ^ 6)) by reflexivity.
    reflexivity.
  - assert (0 <= f < 10 ^ Z.of_nat 6) as Hf by (apply Z.mod_pos_bound; reflexivity).
    destruct (fraction_digits_spec 6 f Hf) as (B & L & TF & W).
    rewrite (span_digits_app _ (String "." _) A eq_refl).
    change (Ascii.eqb "." ".") with true. cbv iota.
    rewrite <- (append_empty_r (fraction_digits 6 f)) at 1.
    rewrite (span_digits_app _ EmptyString B eq_refl), T. simpl orb. cbv iota.
    unfold ExponentPart. rewrite V.
    destruct (W I) as (v & V1 & V2). rewrite V1.
    set (j := String.length (fraction_digits 6 f)) in *.
    assert (1 <= j)%nat as Hj.
    { specialize (TF NZ). unfold j.
      destruct (fraction_digits 6 f); [discriminate TF | simpl; lia]. }
    unfold of_decimal.
    assert ((0 <=? - Z.of_nat j) = false) as -> by (apply Z.leb_gt; lia).
    rewrite Z.opp_involutive. f_equal. f_equal.
    change (Z.of_nat 6) with 6 in V2.
    rewrite En, <- V2.
    replace (10 ^ 6) with (10 ^ Z.of_nat j * 10 ^ (6 - Z.of_nat j))
      by (rewrite <- Z.pow_add_r by lia; f_equal; lia).
    symmetry. apply nearest_scale; apply Z.pow_pos_nonneg; lia.
Qed.

(** [Number] reads a formatted finite Number as that Number rounded to 6
    decimals. *)
Lemma Number_format x : finite x -> Number (format x) = round6 x.
Proof.
  destruct x as [|neg m]; [simpl; tauto|]. intros [H0 H1].
  unfold format, round6.
  assert ((INF <=? m) = false) as -> by (apply Z.leb_gt; exact H1).
  pose proof (micro_nonneg m (conj H0 H1)) as Hn.
  destruct (fixed6_head _ Hn) as (c & r & E & Dc & Nr & H2).
  pose proof (StrUnsignedDecimalLiteral_fixed6 neg _ Hn) as U.
  pose proof (fixed6_numeric _ Hn) as N.
  assert (forall s, all_chars is_numeric s = true ->
                    all_chars (fun c => negb (is_space c)) s = true) as NS.
  { intros s. apply all_chars_weaken. intros k Hk.
    rewrite (is_numeric_not_space k Hk). reflexivity. }
  unfold Number.
  destruct neg.
  - change ("-" ++ fixed6 (micro m))%string with (String "-" (fixed6 (micro m))).
    rewrite trim_start_id by reflexivity.
    rewrite trim_end_id by (simpl; apply NS, N).
    simpl truthy. cbv iota. unfold StrNumericLiteral.
    rewrite E. change (Ascii.eqb "-" "0") with false. simpl andb. cbv iota.
    unfold StrDecimalLiteral. change (Ascii.eqb "-" "+") with false.
    change (Ascii.eqb "-" "-") with true. cbv iota.
    rewrite <- E, U. reflexivity.
  - change (EmptyString ++ fixed6 (micro m))%string with (fixed6 (micro m)).
    rewrite E in N |- *.
    rewrite trim_start_id
      by (apply is_numeric_not_space, is_digit_numeric, Dc).
    rewrite trim_end_id by (apply NS, N).
    simpl truthy. cbv iota.
    assert (StrDecimalLiteral (String c r) = Some (Num false (nearest (micro m) (10 ^ 6))))
      as D.
    { unfold StrDecimalLiteral.
      assert (Ascii.eqb c "+" = false) as -> by not_this_char Dc.
      assert (Ascii.eqb c "-" = false) as -> by not_this_char Dc.
      rewrite <- E. exact U. }
    unfold StrNumericLiteral. destruct r as [|c1 r]; [rewrite D; reflexivity|].
    assert (Ascii.eqb c1 "b" = false) as -> by not_this_char H2.
    assert (Ascii.eqb c1 "B" = false) as -> by not_this_char H2.
    assert (Ascii.eqb c1 "o" = false) as -> by not_this_char H2.
    assert (Ascii.eqb c1 "O" = false) as -> by not_this_char H2.
    assert (Ascii.eqb c1 "x" = false) as -> by not_this_char H2.
    assert (Ascii.eqb c1 "X" = false) as -> by not_this_char H2.
    rewrite !andb_false_r. rewrite D. reflexivity.
Qed.

(** ** The fragment written and read back *)

Lemma split_no_sep s : all_chars not_comma s = true -> split "," s = [s].
Proof.
  induction s as [|c r IH]; [reflexivity|]. cbn [all_chars split]. intros H.
  apply andb_true_iff in H as [Hc Hr]. apply negb_true_iff in Hc.
  rewrite Hc, (IH Hr). reflexivity.
Qed.

Lemma split_app_sep s r :
  all_chars not_comma s = true ->
  split "," (s ++ String "," r) = s :: split "," r.
Proof.
  induction s as [|c t IH]; [reflexivity|]. cbn [all_chars append split]. intros H.
  apply andb_true_iff in H as [Hc Hr]. apply negb_true_iff in Hc.
  rewrite Hc, (IH Hr). reflexivity.
Qed.

Lemma split_join4 a b c d :
  all_chars not_comma a = true -> all_chars not_comma b = true ->
  all_chars not_comma c = true -> all_chars not_comma d = true ->
  split "," (join "," [a; b; c; d]) = [a; b; c; d].
Proof.
  intros Ha Hb Hc Hd. unfold join. cbn [concat].
  assert (forall x, ("," ++ x)%string = String "," x) as E by reflexivity.
  rewrite !E.
  rewrite (split_app_sep a), (split_app_sep b), (split_app_sep c) by assumption.
  rewrite split_no_sep by assumption. reflexivity.
Qed.

Lemma format_numeric x : finite x -> all_chars is_numeric (format x) = true.
Proof.
  destruct x as [|neg m]; [simpl; tauto|]. intros [H0 H1]. unfold format.
  assert ((INF <=? m) = false) as -> by (apply Z.leb_gt; exact H1).
  rewrite all_chars_app, (fixed6_numeric _ (micro_nonneg m (conj H0 H1))).
  destruct neg; reflexivity.
Qed.

Lemma format_no_comma x : finite x -> all_chars not_comma (format x) = true.
Proof.
  intros H. apply (all_chars_weaken is_numeric); [|apply format_numeric, H].
  intros c Hc. unfold not_comma. rewrite (is_numeric_not_comma c Hc). reflexivity.
Qed.

(** ** The fragment that a completed drag writes *)

(** A fragment read in the middle of a drag can leave an infinite start:
    the drag then writes the infinity sign, which [location.hash] reports
    percent-encoded. *)
Example infinite_start_is_encoded :
  let s := run [noMod "r"; mousedown (int 5, int 5);
                hashchange "#Infinity,0,1,1"; mouseup (int 5, int 5)]
             (mount env0) in
  history (window (snd s)) = ["/#5,0,∞,5"%string]
  /\ hash (location (window (snd s))) = "#5,0,%E2%88%9E,5"%string.
Proof. vm_compute. split; reflexivity. Qed.

(** The URL parser leaves a formatted finite Number, and a comma, as they
    are. *)
Lemma is_numeric_not_encoded c :
  is_numeric c || Ascii.eqb c "," = true -> fragment_percent_encode_set c = false.
Proof.
  destruct (fragment_percent_encode_set c) eqn:E; [|reflexivity].
  intros H. exfalso. revert H E.
  unfold is_numeric, is_digit, fragment_percent_encode_set, code.
  destruct c as [[] [] [] [] [] [] [] []]; vm_compute; congruence.
Qed.

Lemma fragment_encode_numeric s :
  all_chars (fun c => is_numeric c || Ascii.eqb c ",") s = true ->
  fragment_encode s = s.
Proof.
  intros H. apply fragment_encode_id. revert H. apply all_chars_weaken.
  intros c Hc. rewrite (is_numeric_not_encoded c Hc). reflexivity.
Qed.

Lemma formatted_box_plain lon1 lat1 lon2 lat2 :
  finite lon1 -> finite lat1 -> finite lon2 -> finite lat2 ->
  fragment_encode
    (join "," [formatCoordinate (Math_min lon1 lon2);
               formatCoordinate (Math_min lat1 lat2);
               formatCoordinate (Math_max lon1 lon2);
               formatCoordinate (Math_max lat1 lat2)])
  = join "," [formatCoordinate (Math_min lon1 lon2);
              formatCoordinate (Math_min lat1 lat2);
              formatCoordinate (Math_max lon1 lon2);
              formatCoordinate (Math_max lat1 lat2)].
Proof.
  intros F1 F2 F3 F4. apply fragment_encode_numeric.
  assert (forall x, finite x ->
                    all_chars (fun c => is_numeric c || Ascii.eqb c ",") (format x)
                    = true) as P.
  { intros x Hx. apply (all_chars_weaken is_numeric); [|apply format_numeric, Hx].
    intros c ->. reflexivity. }
  unfold join, formatCoordinate. cbn [concat]. rewrite !all_chars_app.
  rewrite !P by (first [apply Math_min_finite | apply Math_max_finite]; assumption).
  reflexivity.
Qed.

(** C6: when a drag with the rectangle tool ends on another coordinate, the
    box keeps its start and takes the pointer-up coordinate as its end, the
    URL given to [pushState] carries the fragment
    [minLon,minLat,maxLon,maxLat], the fit-to-bounds flag is set, and
    [location.hash] then reports that fragment as the URL parser encodes it:
    as it is when the four coordinates are finite. *)
Theorem C6_completed_drag_writes_url
  (st : State) (env : Env) (start0 e : LngLat) :
  activeTool st = rectangle -> isDrawing st = true ->
  start (boundingBox st) = Some start0 ->
  strict_eq (fst start0) (fst e) && strict_eq (snd start0) (snd e) = false ->
  let st' := fst (handleMouseUp e st env) in
  let env' := snd (handleMouseUp e st env) in
  let box := join ","
               [formatCoordinate (Math_min (fst start0) (fst e));
                formatCoordinate (Math_min (snd start0) (snd e));
                formatCoordinate (Math_max (fst start0) (fst e));
                formatCoordinate (Math_max (snd start0) (snd e))] in
  boundingBox st' = {| start := Some start0; end_ := Some e |}
  /\ history (window env')
     = (pathname (location (window env)) ++ search (location (window env))
        ++ "#" ++ box)%string
       :: history (window env)
  /\ (all_chars not_hash (pathname (location (window env))) = true ->
      all_chars not_hash (search (location (window env))) = true ->
      hash (location (window env')) = String "#" (fragment_encode box)
      /\ (finite (fst start0) -> finite (snd start0) ->
          finite (fst e) -> finite (snd e) ->
          hash (location (window env')) = String "#" box))
  /\ fitToBoundsNextRender st' = true.
Proof.
  intros Ht Hd Hs Hne. unfold handleMouseUp.
  rewrite (guard_passes_intro st start0 Ht Hd Hs), Hs.
  destruct e as [lon lat], start0 as [lon0 lat0].
  cbn [fst snd] in *. rewrite Hne. cbn [negb fst snd].
  split; [reflexivity|]. split; [reflexivity|]. split; [|reflexivity].
  intros Hp Hq. rewrite updateURL_hash by assumption.
  unfold formatBoundingBox. cbn [separator order noOptions].
  cbv zeta. rewrite join4_truthy. split; [reflexivity|].
  intros F1 F2 F3 F4. f_equal. apply formatted_box_plain; assumption.
Qed.

(** The drag of the specification, from (151, -33) to (150, -34), pushes the
    fragment [150,-34,151,-33]. *)
Lemma C6_completed_drag_writes_url_witness :
  let st' := fst (handleMouseUp (int 150, int (-34)) dragging env0) in
  let env' := snd (handleMouseUp (int 150, int (-34)) dragging env0) in
  boundingBox st' = {| start := Some (int 151, int (-33));
                       end_ := Some (int 150, int (-34)) |}
  /\ history (window env') = ["/#150,-34,151,-33"%string]
  /\ hash (location (window env')) = "#150,-34,151,-33"%string
  /\ fitToBoundsNextRender st' = true.
Proof.
  assert (strict_eq (int 151) (int 150) && strict_eq (int (-33)) (int (-34)) = false)
    as H1 by (vm_compute; reflexivity).
  pose proof (C6_completed_drag_writes_url dragging env0 (int 151, int (-33))
                (int 150, int (-34)) eq_refl eq_refl eq_refl H1) as H.
  cbv zeta in H |- *. destruct H as (Hb & Hh & Hl & Hf).
  split; [exact Hb|]. split; [rewrite Hh; vm_compute; reflexivity|].
  split; [rewrite (proj1 (Hl eq_refl eq_refl)); vm_compute; reflexivity | exact Hf].
Defined.

Lemma round6_finite_not_NaN x : finite x -> isNaN (round6 x) = false.
Proof. destruct x; [simpl; tauto|]. intros _. rewrite round6_Num. reflexivity. Qed.

(** C2 fails for a box with an infinite coordinate, which the fragment
    [#Infinity,0,1,1] produces: it is written with the infinity sign, which
    [Number] does not read, as it is or percent-encoded as [location.hash]
    reports it, so the handler ignores the fragment. *)
Lemma C2_counterexample :
  let s := (Num false INF, int 0) in
  let e := (int 1, int 1) in
  boundingBox (handleHashChange (navigate "#Infinity,0,1,1" env0) initialState)
  = {| start := Some s; end_ := Some e |}
  /\ formatBoundingBox (Some s) (Some e) noOptions = "1,0,∞,1"%string
  /\ handleHashChange (navigate "#1,0,∞,1" env0) initialState = initialState
  /\ fragment_encode "1,0,∞,1" = "1,0,%E2%88%9E,1"%string
  /\ handleHashChange (navigate "#1,0,%E2%88%9E,1" env0) initialState = initialState
  /\ ~ roundtrip s e.
Proof.
  cbv zeta.
  assert (formatBoundingBox (Some (Num false INF, int 0)) (Some (int 1, int 1)) noOptions
          = "1,0,∞,1"%string) as F by (vm_compute; reflexivity).
  assert (handleHashChange (navigate "#1,0,∞,1" env0) initialState = initialState)
    as H by (vm_compute; reflexivity).
  split; [vm_compute; reflexivity|]. split; [exact F|]. split; [exact H|].
  split; [vm_compute; reflexivity|]. split; [vm_compute; reflexivity|].
  intros R. specialize (R env0 initialState). cbv zeta in R. rewrite F, H in R.
  destruct R as (s' & e' & B & _). discriminate B.
Qed.

(** C2, amended: for every box with both corners set to finite coordinates,
    the fragment written by [formatBoundingBox] is read back as a box whose
    normalized form is the normalized form of the original with each
    coordinate rounded to 6 decimals, as [formatCoordinate] rounds it. *)
Theorem C2_roundtrip (s e : LngLat) :
  finite (fst s) -> finite (snd s) -> finite (fst e) -> finite (snd e) ->
  roundtrip s e.
Proof.
  destruct s as [lon1 lat1], e as [lon2 lat2]. cbn [fst snd].
  intros F1 F2 F3 F4 env st fragment.
  pose proof (Math_min_finite _ _ F1 F3) as Fa.
  pose proof (Math_min_finite _ _ F2 F4) as Fb.
  pose proof (Math_max_finite _ _ F1 F3) as Fc.
  pose proof (Math_max_finite _ _ F2 F4) as Fd.
  assert (split "," (slice1 (String "#" fragment))
          = [format (Math_min lon1 lon2); format (Math_min lat1 lat2);
             format (Math_max lon1 lon2); format (Math_max lat1 lat2)]) as S
    by (apply split_join4; apply format_no_comma; assumption).
  rewrite (handleHashChange_accepts _ env st _ _ _ _ _ S)
    by (rewrite Number_format by assumption; apply round6_finite_not_NaN; assumption).
  rewrite !Number_format by assumption.
  do 2 eexists. split; [reflexivity|].
  unfold normalized, round6_corner. cbn [fst snd].
  pose proof (finite_is_number _ F1). pose proof (finite_is_number _ F2).
  pose proof (finite_is_number _ F3). pose proof (finite_is_number _ F4).
  rewrite !round6_Math_min, !round6_Math_max
    by (first [apply Math_min_is_number | apply Math_max_is_number]; assumption).
  destruct (Math_min_max_idem lon1 lon2) as [-> ->]; try assumption.
  destruct (Math_min_max_idem lat1 lat2) as [-> ->]; try assumption.
  reflexivity.
Qed.

(** A drag from (151.25, -33.5) to (150.1234567, -34): the fragment written
    is read back as a box with the corners of the original rounded to 6
    decimals. *)
Lemma C2_roundtrip_witness :
  exists s' e',
    boundingBox
      (handleHashChange
         (navigate
            (String "#"
               (formatBoundingBox (Some (Number "151.25", Number "-33.5"))
                  (Some (Number "150.1234567", Number "-34")) noOptions))
            env0) initialState)
    = {| start := Some s'; end_ := Some e' |}
    /\ normalized s' e'
       = (round6_corner
            (fst (normalized (Number "151.25", Number "-33.5")
                    (Number "150.1234567", Number "-34"))),
          round6_corner
            (snd (normalized (Number "151.25", Number "-33.5")
                    (Number "150.1234567", Number "-34")))).
Proof.
  apply (C2_roundtrip (Number "151.25", Number "-33.5")
           (Number "150.1234567", Number "-34"));
    vm_compute; (split; [discriminate | reflexivity]).
Defined.

(** The formatter rounds the shortest decimal of the Number, not its exact
    value: the Number nearest to 120.7605425 is below it, and is written
    120.760543. *)
Example format_rounds_shortest_decimal :
  format (Number "120.7605425") = "120.760543"%string
  /\ format (Number "0.1234565") = "0.123457"%string
  /\ format (Number "0.0000005") = "0.000001"%string
  /\ format (Number "-0.0000001") = "-0"%string
  /\ format (Number "1e23") = "100000000000000000000000"%string
  /\ format (Number "1e21") = "1000000000000000000000"%string
  /\ format (Number "-26.237423") = "-26.237423"%string
  /\ format (Number "Infinity") = "∞"%string.
Proof. vm_compute. repeat split. Qed.

Example round6_shortest_decimal :
  round6 (Number "120.7605425") = Number "120.760543"
  /\ round6 (Number "0.1234565") = Number "0.123457"
  /\ round6 (Number "-33.5") = Number "-33.5".
Proof. vm_compute. repeat split. Qed.

Example roundtrip_fragment :
  formatBoundingBox (Some (Number "151.25", Number "-33.5"))
    (Some (Number "150.1234567", Number "-34")) noOptions
  = "150.123457,-34,151.25,-33.5"%string
  /\ boundingBox (handleHashChange (navigate "#150.123457,-34,151.25,-33.5" env0)
                    initialState)
     = {| start := Some (Number "150.123457", Number "-34");
          end_ := Some (Number "151.25", Number "-33.5") |}.
Proof. split; vm_compute; reflexivity. Qed.

(** ** The coordinates a box can hold *)

Lemma digit_in_nonneg base c v : digit_in base c = Some v -> 0 <= v.
Proof.
  unfold digit_in, code.
  destruct (Z.leb_spec 48 (Z.of_nat (nat_of_ascii c)));
    destruct (Z.leb_spec (Z.of_nat (nat_of_ascii c)) 57);
    destruct (Z.leb_spec 97 (Z.of_nat (nat_of_ascii c)));
    destruct (Z.leb_spec (Z.of_nat (nat_of_ascii c)) 102);
    destruct (Z.leb_spec 65 (Z.of_nat (nat_of_ascii c)));
    destruct (Z.leb_spec (Z.of_nat (nat_of_ascii c)) 70);
    cbn [andb]; destruct (_ <? base); intros [= <-]; lia.
Qed.

Lemma digits_value_nonneg base acc s v :
  0 <= base -> 0 <= acc -> digits_value base acc s = Some v -> 0 <= v.
Proof.
  intros Hb. revert acc. induction s as [|c r IH]; intros acc Ha; simpl.
  - intros [= <-]. exact Ha.
  - destruct (digit_in base c) as [k|] eqn:E; [|discriminate].
    apply IH. pose proof (digit_in_nonneg _ _ _ E). nia.
Qed.

Lemma of_decimal_is_number neg mant e10 :
  0 <= mant -> is_number (of_decimal neg mant e10).
Proof.
  intros H. unfold of_decimal. cbn [is_number].
  destruct (Z.leb_spec 0 e10).
  - apply nearest_range; [reflexivity|].
    apply Z.mul_nonneg_nonneg; [exact H | apply Z.pow_nonneg; lia].
  - apply nearest_range; [apply (Z.pow_pos_nonneg 10 (- e10)); lia | exact H].
Qed.

Lemma ExponentPart_is_number neg ds fl s v :
  ExponentPart neg ds fl s = Some v -> is_number v.
Proof.
  unfold ExponentPart.
  destruct (digits_value 10 0 ds) as [mant|] eqn:E; [|discriminate].
  pose proof (digits_value_nonneg 10 0 ds mant ltac:(lia) ltac:(lia) E) as Hm.
  destruct s as [|c r].
  - intros [= <-]. apply of_decimal_is_number, Hm.
  - destruct (_ || _); [|discriminate].
    destruct (SignedInteger r); [|discriminate].
    intros [= <-]. apply of_decimal_is_number, Hm.
Qed.

Lemma StrUnsignedDecimalLiteral_is_number neg s v :
  StrUnsignedDecimalLiteral neg s = Some v -> is_number v.
Proof.
  unfold StrUnsignedDecimalLiteral.
  destruct (String.eqb s "Infinity").
  - intros [= <-]. cbn. split; [discriminate | apply Z.le_refl].
  - destruct (span_digits s) as [ip r]. destruct r as [|c r'].
    + destruct (truthy ip); [apply ExponentPart_is_number | discriminate].
    + destruct (Ascii.eqb c ".").
      * destruct (span_digits r') as [fp r''].
        destruct (_ || _); [apply ExponentPart_is_number | discriminate].
      * destruct (truthy ip); [apply ExponentPart_is_number | discriminate].
Qed.

Lemma StrNumericLiteral_is_number s v : StrNumericLiteral s = Some v -> is_number v.
Proof.
  assert (forall t, StrDecimalLiteral t = Some v -> is_number v) as D.
  { intros t. unfold StrDecimalLiteral. destruct t as [|c r]; [discriminate|].
    destruct (Ascii.eqb c "+"); [apply StrUnsignedDecimalLiteral_is_number|].
    destruct (Ascii.eqb c "-"); apply StrUnsignedDecimalLiteral_is_number. }
  assert (forall base t, 0 <= base ->
                         NonDecimalIntegerLiteral base t = Some v -> is_number v) as N.
  { intros base t Hb. unfold NonDecimalIntegerLiteral.
    destruct (truthy t); [|discriminate].
    destruct (digits_value base 0 t) as [k|] eqn:E; [|discriminate].
    intros [= <-]. cbn [is_number]. apply nearest_range; [reflexivity|].
    apply (digits_value_nonneg base 0 t k Hb ltac:(lia) E). }
  unfold StrNumericLiteral. destruct s as [|c0 [|c1 r]]; try apply D.
  destruct (_ && _); [apply N; lia|].
  destruct (_ && _); [apply N; lia|].
  destruct (_ && _); [apply N; lia|]. apply D.
Qed.

(** [Number] of a string is NaN or a Number. *)
Lemma Number_is_number s : isNaN (Number s) = false -> is_number (Number s).
Proof.
  unfold Number. destruct (truthy _).
  - destruct (StrNumericLiteral _) as [v|] eqn:E; [|discriminate].
    intros _. apply (StrNumericLiteral_is_number _ _ E).
  - intros _. cbn. split; [apply Z.le_refl | discriminate].
Qed.

Lemma handleHashChange_box_ok env st :
  box_ok (boundingBox st) -> box_ok (boundingBox (handleHashChange env st)).
Proof.
  intros H. unfold handleHashChange.
  destruct (truthy _); [|exact H].
  set (nums := map Number _).
  assert (forall i v, nth_error nums i = Some v -> isNaN v = false -> is_number v) as N.
  { intros i v Hi Hv. apply nth_error_In in Hi. apply in_map_iff in Hi as (c & <- & _).
    apply Number_is_number, Hv. }
  destruct (nth_error nums 0) as [a|] eqn:E0; [|exact H].
  destruct (nth_error nums 1) as [b|] eqn:E1; [|rewrite andb_false_r; exact H].
  destruct (nth_error nums 2) as [c|] eqn:E2; [|rewrite andb_false_r; exact H].
  destruct (nth_error nums 3) as [d|] eqn:E3; [|rewrite andb_false_r; exact H].
  cbn [isNaN_elt].
  destruct (isNaN a) eqn:Na; [exact H|]. destruct (isNaN b) eqn:Nb; [exact H|].
  destruct (isNaN c) eqn:Nc; [exact H|]. destruct (isNaN d) eqn:Nd; [exact H|].
  unfold box_ok. cbn. repeat split; eauto.
Qed.

(** Every handler keeps NaN out of the box. *)
Lemma handle_box_ok ev st env :
  event_ok ev -> box_ok (boundingBox st) ->
  box_ok (boundingBox (fst (handle ev st env))).
Proof.
  intros He [Hs Hn]. destruct ev; cbn [handle fst event_ok] in *;
    try (split; assumption).
  - apply handleHashChange_box_ok. split; assumption.
  - unfold handleMouseDown. destruct (activeTool st); [split; assumption|].
    destruct e. cbn in *. unfold box_ok. cbn. tauto.
  - unfold handleMouseMove. destruct (notDrawingRectangle st); [split; assumption|].
    destruct e. cbn in *. unfold box_ok. cbn. tauto.
  - unfold handleMouseUp. destruct (notDrawingRectangle st); [split; assumption|].
    destruct (start (boundingBox st)) as [[lon0 lat0]|] eqn:E.
    + destruct e as [lon lat].
      destruct (_ && _); unfold box_ok; cbn in *; rewrite ?E; cbn; tauto.
    + unfold box_ok. cbn. rewrite E. split; [exact I | exact Hn].
  - unfold handleKeyDown.
    destruct (_ && _); [split; assumption|].
    destruct (_ && _); [split; assumption|].
    destruct (_ && _); split; assumption.
  - destruct (fitToBoundsIfRequested_state st env) as [-> | ->]; split; assumption.
Qed.

Lemma step_box_ok ev s :
  event_ok ev -> box_ok (boundingBox (fst s)) ->
  box_ok (boundingBox (fst (step ev s))).
Proof.
  intros He H. destruct s as [st env]. unfold step.
  pose proof (handle_box_ok ev st env He H) as K.
  destruct (handle ev st env) as [st' env']. destruct (setsBoundingBox _ _ _); exact K.
Qed.

(** From the first render on, the corners of the box are Numbers other than
    NaN, whatever the fragments and the events. *)
Theorem run_box_ok evs env :
  Forall event_ok evs -> box_ok (boundingBox (fst (run evs (mount env)))).
Proof.
  intros H. unfold run.
  assert (box_ok (boundingBox (fst (mount env)))) as B
    by (apply handleHashChange_box_ok; split; exact I).
  revert B. generalize (mount env). induction H as [|ev evs He _ IH]; intros s B.
  - exact B.
  - cbn [fold_left]. apply IH. apply step_box_ok; assumption.
Qed.

(** The displayed string of the specification's drag. *)
Example display_after_drag :
  getFormattedBoundingBox
    (fst (run [noMod "r"; mousedown (int 151, int (-33));
               mousemove (int 150, int (-34)); mouseup (int 150, int (-34))]
            (mount env0)))
  = "150,-34,151,-33"%string.
Proof. vm_compute. reflexivity. Qed.

(** ** The formatted box *)

Lemma millionths_min_le_max a b :
  finite a -> finite b -> millionths (Math_min a b) <= millionths (Math_max a b).
Proof.
  destruct a as [|s m], b as [|s' m']; simpl; try tauto. intros Ha Hb.
  pose proof (micro_nonneg m ltac:(lia)). pose proof (micro_nonneg m' ltac:(lia)).
  destruct (Z.leb_spec (key s m) (key s' m')) as [L|G]; simpl;
    unfold key, signed in *; destruct s, s'; try lia;
    try (assert (micro m <= micro m') by (apply micro_mono; lia); lia);
    try (assert (micro m' <= micro m) by (apply micro_mono; lia); lia).
Qed.

(** C1: for corners in either drag order, [formatBoundingBox] writes, in
    the default order, the smaller longitude, the smaller latitude, the
    larger longitude and the larger latitude of the two corners, so that
    the box written has [minLon <= maxLon] and [minLat <= maxLat], as
    Numbers and as the decimals displayed. *)
Theorem C1_format_normalized (lon1 lat1 lon2 lat2 : number) :
  is_number lon1 -> is_number lat1 -> is_number lon2 -> is_number lat2 ->
  let minLon := Math_min lon1 lon2 in
  let minLat := Math_min lat1 lat2 in
  let maxLon := Math_max lon1 lon2 in
  let maxLat := Math_max lat1 lat2 in
  formatBoundingBox (Some (lon1, lat1)) (Some (lon2, lat2)) noOptions
  = join "," [formatCoordinate minLon; formatCoordinate minLat;
              formatCoordinate maxLon; formatCoordinate maxLat]
  /\ formatBoundingBox (Some (lon2, lat2)) (Some (lon1, lat1)) noOptions
     = formatBoundingBox (Some (lon1, lat1)) (Some (lon2, lat2)) noOptions
  /\ (minLon = lon1 \/ minLon = lon2) /\ (maxLon = lon1 \/ maxLon = lon2)
  /\ (minLat = lat1 \/ minLat = lat2) /\ (maxLat = lat1 \/ maxLat = lat2)
  /\ num_le minLon lon1 = true /\ num_le minLon lon2 = true
  /\ num_le lon1 maxLon = true /\ num_le lon2 maxLon = true
  /\ num_le minLat lat1 = true /\ num_le minLat lat2 = true
  /\ num_le lat1 maxLat = true /\ num_le lat2 maxLat = true
  /\ num_le minLon maxLon = true /\ num_le minLat maxLat = true
  /\ (finite lon1 -> finite lon2 -> millionths minLon <= millionths maxLon)
  /\ (finite lat1 -> finite lat2 -> millionths minLat <= millionths maxLat).
Proof.
  intros H1 H2 H3 H4 minLon minLat maxLon maxLat.
  pose proof (is_number_not_NaN _ H1). pose proof (is_number_not_NaN _ H2).
  pose proof (is_number_not_NaN _ H3). pose proof (is_number_not_NaN _ H4).
  split; [reflexivity|].
  split; [unfold formatBoundingBox; cbn [separator order noOptions];
          rewrite (Math_min_comm lon2 lon1), (Math_min_comm lat2 lat1),
            (Math_max_comm lon2 lon1), (Math_max_comm lat2 lat1) by assumption;
          reflexivity|].
  unfold minLon, minLat, maxLon, maxLat.
  repeat split; auto using millionths_min_le_max with numbers.
  - rewrite Math_min_comm by assumption. apply Math_min_le_l; assumption.
  - rewrite Math_max_comm by assumption. apply Math_max_ge_l; assumption.
  - rewrite Math_min_comm by assumption. apply Math_min_le_l; assumption.
  - rewrite Math_max_comm by assumption. apply Math_max_ge_l; assumption.
Qed.

(** The drag of the specification in both directions. *)
Lemma C1_format_normalized_witness :
  formatBoundingBox (Some (int 151, int (-33))) (Some (int 150, int (-34))) noOptions
  = "150,-34,151,-33"%string
  /\ formatBoundingBox (Some (int 150, int (-34))) (Some (int 151, int (-33))) noOptions
     = "150,-34,151,-33"%string
  /\ num_le (Math_min (int 151) (int 150)) (Math_max (int 151) (int 150)) = true
  /\ num_le (Math_min (int (-33)) (int (-34))) (Math_max (int (-33)) (int (-34))) = true.
Proof.
  assert (is_number (int 151)) as H1 by (vm_compute; split; discriminate).
  assert (is_number (int (-33))) as H2 by (vm_compute; split; discriminate).
  assert (is_number (int 150)) as H3 by (vm_compute; split; discriminate).
  assert (is_number (int (-34))) as H4 by (vm_compute; split; discriminate).
  pose proof (C1_format_normalized (int 151) (int (-33)) (int 150) (int (-34))
                H1 H2 H3 H4) as P.
  cbv zeta in P.
  destruct P as (F & S & _ & _ & _ & _ & _ & _ & _ & _ & _ & _ & _ & _ & Lon & Lat & _).
  split; [rewrite F; vm_compute; reflexivity|].
  split; [rewrite S, F; vm_compute; reflexivity|].
  split; [exact Lon | exact Lat].
Defined.

(** ** Components that [Number] accepts *)

(** C10: [Number] reads the empty string as [+0], so the fragment [,,,] is
    taken as four numbers and replaces the box with the corners (0, 0) and
    (0, 0); and the handler reads the first four components only, whatever
    follows them. *)
Theorem C10_empty_components_accepted :
  Number EmptyString = Num false 0
  /\ (forall env st,
        handleHashChange (navigate "#,,," env) st
        = setFitToBoundsNextRender true
            (setBoundingBox {| start := Some (Num false 0, Num false 0);
                               end_ := Some (Num false 0, Num false 0) |} st))
  /\ (forall h h' env env' st c1 c2 c3 c4 rest rest',
        split "," (slice1 h) = c1 :: c2 :: c3 :: c4 :: rest ->
        split "," (slice1 h') = c1 :: c2 :: c3 :: c4 :: rest' ->
        handleHashChange (navigate h env) st
        = handleHashChange (navigate h' env') st).
Proof.
  split; [reflexivity|]. split.
  - intros env st.
    apply (handleHashChange_accepts "#,,," env st "" "" "" "" []); reflexivity.
  - intros h h' env env' st c1 c2 c3 c4 rest rest' S S'.
    unfold handleHashChange. rewrite !hash_navigate.
    rewrite (split_two_truthy _ _ _ _ _ S), (split_two_truthy _ _ _ _ _ S'), S, S'.
    reflexivity.
Qed.

(** The fragment [1,2,3,4,5] is read as the fragment [1,2,3,4]. *)
Lemma C10_empty_components_accepted_witness :
  handleHashChange (navigate "#1,2,3,4,5" env0) initialState
  = handleHashChange (navigate "#1,2,3,4" env0) initialState.
Proof.
  apply (proj2 (proj2 C10_empty_components_accepted)
           "#1,2,3,4,5" "#1,2,3,4" env0 env0 initialState "1" "2" "3" "4" ["5"] []);
    reflexivity.
Defined.

(** * Further properties of the component *)

(** ** The fragment handler *)

(** Reading the same fragment twice is reading it once. *)
Theorem handleHashChange_idempotent (env : Env) (st : State) :
  handleHashChange env (handleHashChange env st) = handleHashChange env st.
Proof.
  unfold handleHashChange.
  destruct (truthy _); [|reflexivity].
  set (nums := map Number _).
  destruct (_ && _); [|reflexivity].
  destruct (nth_error nums 0), (nth_error nums 1), (nth_error nums 2),
    (nth_error nums 3); reflexivity.
Qed.

(** A fragment, well-formed or not, never changes the tool, the drag in
    progress or the map style; and when it changes the box, the box is
    complete and the fit-to-bounds flag is set. *)
Theorem handleHashChange_frame (env : Env) (st : State) :
  activeTool (handleHashChange env st) = activeTool st
  /\ isDrawing (handleHashChange env st) = isDrawing st
  /\ mapStyle (handleHashChange env st) = mapStyle st
  /\ (handleHashChange env st = st
      \/ exists s e,
           boundingBox (handleHashChange env st)
           = {| start := Some s; end_ := Some e |}
           /\ isNaN (fst s) = false /\ isNaN (snd s) = false
           /\ isNaN (fst e) = false /\ isNaN (snd e) = false
           /\ fitToBoundsNextRender (handleHashChange env st) = true).
Proof.
  unfold handleHashChange.
  destruct (truthy _); [|repeat split; left; reflexivity].
  set (nums := map Number _).
  destruct (nth_error nums 0) as [a|], (nth_error nums 1) as [b|],
    (nth_error nums 2) as [c|], (nth_error nums 3) as [d|]; cbn [isNaN_elt negb andb];
    rewrite ?andb_false_r; try (repeat split; left; reflexivity).
  destruct (isNaN a) eqn:Na, (isNaN b) eqn:Nb, (isNaN c) eqn:Nc, (isNaN d) eqn:Nd;
    cbn [negb andb]; try (repeat split; left; reflexivity).
  repeat split. right. exists (a, b), (c, d). repeat split; assumption.
Qed.

(** ** The keyboard *)

(** A key pressed with a modifier held changes nothing. *)
Theorem handleKeyDown_modifier_ignored
  (key : string) (metaKey altKey ctrlKey shiftKey : bool) (st : State) :
  metaKey || altKey || ctrlKey || shiftKey = true ->
  handleKeyDown key metaKey altKey ctrlKey shiftKey st = st.
Proof.
  intros H. unfold handleKeyDown.
  assert (negb metaKey && negb altKey && negb ctrlKey && negb shiftKey = false) as ->
    by (destruct metaKey, altKey, ctrlKey, shiftKey; try reflexivity; discriminate H).
  rewrite !andb_false_r. reflexivity.
Qed.

Lemma handleKeyDown_modifier_ignored_witness :
  handleKeyDown "r" false false true false initialState = initialState.
Proof.
  apply (handleKeyDown_modifier_ignored "r" false false true false initialState).
  reflexivity.
Defined.

(** No key changes the box, the drag in progress or the fit-to-bounds flag;
    [s] pressed twice gives the state back, and [r] and [h] give the same
    state however often they are pressed. *)
Theorem handleKeyDown_shortcuts
  (key : string) (metaKey altKey ctrlKey shiftKey : bool) (st : State) :
  let press k := handleKeyDown k false false false false in
  boundingBox (handleKeyDown key metaKey altKey ctrlKey shiftKey st) = boundingBox st
  /\ isDrawing (handleKeyDown key metaKey altKey ctrlKey shiftKey st) = isDrawing st
  /\ fitToBoundsNextRender (handleKeyDown key metaKey altKey ctrlKey shiftKey st)
     = fitToBoundsNextRender st
  /\ press "s" (press "s" st) = st
  /\ press "r" (press "r" st) = press "r" st
  /\ press "h" (press "h" st) = press "h" st
  /\ press "h" (press "r" st) = press "h" st
  /\ press "r" (press "h" st) = press "r" st.
Proof.
  cbv zeta. split; [|split; [|split]].
  1-3: unfold handleKeyDown;
    destruct (_ && _); [reflexivity|]; destruct (_ && _); [reflexivity|];
    destruct (_ && _); reflexivity.
  destruct st as [t b d f m]. repeat split; try reflexivity.
  destruct m; reflexivity.
Qed.

(** ** The pointer *)

(** While the map pans by drag (the [dragPan] prop, on with the hand tool),
    no pointer event changes the state, the URL or the map: a drag never
    pans and draws at once. *)
Theorem panning_never_draws (ev : Event) (st : State) (env : Env) :
  pointer_event ev -> dragPan st = true ->
  handle ev st env = (st, env).
Proof.
  intros Hp Hd. unfold dragPan in Hd.
  destruct (activeTool st) eqn:T; [|discriminate Hd].
  destruct ev; try contradiction; cbn [handle].
  - unfold handleMouseDown. rewrite T. reflexivity.
  - unfold handleMouseMove, notDrawingRectangle. rewrite T. reflexivity.
  - unfold handleMouseUp, notDrawingRectangle. rewrite T. reflexivity.
Qed.

Lemma panning_never_draws_witness :
  handle (mousedown (int 151, int (-33))) initialState env0 = (initialState, env0).
Proof.
  apply (panning_never_draws (mousedown (int 151, int (-33))) initialState env0).
  - exact I.
  - reflexivity.
Defined.

Lemma moves_keeps st es :
  activeTool st = rectangle -> isDrawing st = true ->
  start (boundingBox st) <> None ->
  activeTool (moves es st) = rectangle /\ isDrawing (moves es st) = true
  /\ start (boundingBox (moves es st)) = start (boundingBox st)
  /\ fitToBoundsNextRender (moves es st) = fitToBoundsNextRender st
  /\ mapStyle (moves es st) = mapStyle st.
Proof.
  revert st. induction es as [|e es IH]; intros st Ht Hd Hs.
  - repeat split; assumption.
  - unfold moves in *. cbn [fold_left].
    destruct (start (boundingBox st)) as [p|] eqn:E; [|contradiction].
    rewrite (handleMouseMove_fires st e (guard_passes_intro st p Ht Hd E)).
    specialize (IH (setBoundingBox {| start := start (boundingBox st);
                                      end_ := Some e |} st)).
    cbn [setBoundingBox activeTool isDrawing boundingBox start
           fitToBoundsNextRender mapStyle] in IH.
    rewrite E in IH |- *. apply IH; [assumption | assumption | discriminate].
Qed.

(** The outcome of a drag depends on where the pointer went down and where
    it came up, not on the moves in between: the same state and the same
    URL as with no move at all. *)
Theorem drag_outcome_ignores_moves
  (st : State) (env : Env) (p q : LngLat) (es : list LngLat) :
  activeTool st = rectangle ->
  handleMouseUp q (moves es (handleMouseDown p st)) env
  = handleMouseUp q (handleMouseDown p st) env.
Proof.
  intros Ht. set (st0 := handleMouseDown p st).
  assert (activeTool st0 = rectangle /\ isDrawing st0 = true
          /\ start (boundingBox st0) = Some p) as (T0 & D0 & S0)
    by (unfold st0, handleMouseDown; rewrite Ht; destruct p; repeat split; assumption).
  destruct (moves_keeps st0 es T0 D0) as (T & D & S & F & M);
    [rewrite S0; discriminate|].
  rewrite S0 in S. unfold handleMouseUp.
  rewrite (guard_passes_intro _ p T D S), (guard_passes_intro _ p T0 D0 S0), S, S0.
  destruct q as [lon lat].
  destruct (strict_eq _ _ && strict_eq _ _); cbn [negb];
    unfold setFitToBoundsNextRender, setActiveTool, setIsDrawing, setBoundingBox;
    cbn [activeTool boundingBox isDrawing fitToBoundsNextRender mapStyle];
    rewrite ?S, ?S0, ?F, ?M; reflexivity.
Qed.

Lemma drag_outcome_ignores_moves_witness :
  handleMouseUp (int 150, int (-34))
    (moves [(int 152, int (-30)); (int 149, int (-35))]
       (handleMouseDown (int 151, int (-33)) (setActiveTool rectangle initialState)))
    env0
  = handleMouseUp (int 150, int (-34))
      (handleMouseDown (int 151, int (-33)) (setActiveTool rectangle initialState))
      env0.
Proof.
  apply (drag_outcome_ignores_moves (setActiveTool rectangle initialState) env0
           (int 151, int (-33)) (int 150, int (-34))
           [(int 152, int (-30)); (int 149, int (-35))]).
  reflexivity.
Defined.

(** ** The overlay and the viewport *)

(** Drawing the same box again changes nothing: no second source, no
    second pair of layers. *)
Theorem renderBoundingBox_idempotent (box : BoundingBox) (env : Env) :
  renderBoundingBox box (renderBoundingBox box env) = renderBoundingBox box env.
Proof.
  unfold renderBoundingBox.
  destruct (start box) as [[lon1 lat1]|], (end_ box) as [[lon2 lat2]|],
    (mapRef env) as [map|] eqn:M; cbn [mapRef]; rewrite ?M; try reflexivity;
    destruct (bbox_source map) eqn:S; cbn [mapRef bbox_source setData
      addSourceAndLayers]; rewrite ?M, ?S; reflexivity.
Qed.






Lemma render_box_unchanged ev st env :
  ev = render \/ ev = load ->
  boundingBox (fst (handle ev st env)) = boundingBox st.
Proof.
  intros [-> | ->]; cbn [handle fst]; [|reflexivity].
  destruct (fitToBoundsIfRequested_state st env) as [-> | ->]; reflexivity.
Qed.






(** The style switched while a box is shown: the overlay is gone although
    the box is still there, and it comes back the next time a handler sets
    the box, to another value or to the same one. *)
Example overlay_lost_on_style_switch :
  let drag := [noMod "r"; mousedown (int 151, int (-33));
               mousemove (int 150, int (-34)); mouseup (int 150, int (-34))] in
  let s := run (drag ++ [noMod "s"]) (mount env0) in
  boundingBox (fst s) = {| start := Some (int 151, int (-33));
                           end_ := Some (int 150, int (-34)) |}
  /\ overlay (snd s) = None
  /\ overlay (snd (run (drag ++ [clickStyle satellite]) (mount env0))) = None
  /\ overlay (snd (run (drag ++ [clickStyle streets]) (mount env0)))
     = Some (ring (int 151, int (-33)) (int 150, int (-34)))
  /\ overlay (snd (run [noMod "r"; mousedown (int 10, int 10);
                        mousemove (int 11, int 11)] s))
     = Some (ring (int 10, int 10) (int 11, int 11))
  /\ overlay (snd (run [hashchange "#1,2,3,4"; noMod "s"] (mount env0))) = None
  /\ overlay (snd (run [hashchange "#1,2,3,4"; noMod "s"; hashchange "#1,2,3,4,5"]
                     (mount env0)))
     = Some (ring (int 1, int 2) (int 3, int 4)).
Proof. vm_compute. repeat split. Qed.

Lemma renders_refused n st env map s e :
  fitToBoundsNextRender st = true -> mapRef env = Some map ->
  start (boundingBox st) = Some s -> end_ (boundingBox st) = Some e ->
  let call := {| southwest := fst (normalized s e);
                 northeast := snd (normalized s e);
                 padding := 160; duration := 150 |} in
  fitBounds_returns call = false ->
  fst (renders n (st, env)) = st
  /\ exists map',
       mapRef (snd (renders n (st, env))) = Some map'
       /\ fitBounds_calls map' = (repeat call n ++ fitBounds_calls map)%list.
Proof.
  intros F M S E call R. revert env map M.
  induction n as [|n IH]; intros env map M; cbn [renders fst snd].
  - split; [reflexivity|]. exists map. split; [exact M | reflexivity].
  - destruct (fitToBoundsIfRequested_cases st env)
      as [H | (map0 & s0 & e0 & _ & M0 & S0 & E0 & H)].
    + exfalso. unfold fitToBoundsIfRequested in H. rewrite F, M, S, E in H.
      cbv zeta in H. destruct (fitBounds_returns _) in H.
      * apply (f_equal fst) in H. apply (f_equal fitToBoundsNextRender) in H.
        cbn in H. congruence.
      * apply (f_equal snd) in H. apply (f_equal mapRef) in H. cbn in H. rewrite M in H.
        injection H as H. apply (f_equal fitBounds_calls) in H. cbn in H.
        apply (f_equal (@List.length _)) in H. cbn in H. lia.
    + rewrite M in M0. injection M0 as <-. rewrite S in S0. injection S0 as <-.
      rewrite E in E0. injection E0 as <-.
      cbv zeta in H. fold call in H. rewrite R in H. rewrite H.
      match goal with
      | |- context [renders n (st, ?env')] =>
          destruct (IH env' _ eq_refl) as (A & map' & B & C)
      end.
      split; [exact A|]. exists map'. split; [exact B|].
      rewrite C. cbn [fitBounds_calls repeat].
      rewrite (repeat_cons n call), <- app_assoc. reflexivity.
Qed.

(** The handler of [onRender] leaves the box alone.  When Mapbox takes the
    bounds of the box (finite longitudes, latitudes within [[-90, 90]]) it is
    one-shot: it changes nothing when it leaves the flag set, and called
    again, any number of times, it does nothing more.  When Mapbox refuses
    the bounds, the state stays as it is, the flag with it, and every render
    makes the call again. *)
Theorem fitToBounds_one_shot (n : nat) (st : State) (env : Env) :
  let s1 := fitToBoundsIfRequested st env in
  boundingBox (fst s1) = boundingBox st
  /\ (box_fits (boundingBox st) ->
      renders n s1 = s1
      /\ (fitToBoundsNextRender (fst s1) = true -> s1 = (st, env)))
  /\ (forall map s e,
        fitToBoundsNextRender st = true -> mapRef env = Some map ->
        start (boundingBox st) = Some s -> end_ (boundingBox st) = Some e ->
        let call := {| southwest := fst (normalized s e);
                       northeast := snd (normalized s e);
                       padding := 160; duration := 150 |} in
        fitBounds_returns call = false ->
        fst (renders n s1) = st
        /\ exists map',
             mapRef (snd (renders n s1)) = Some map'
             /\ fitBounds_calls map' = (repeat call (S n) ++ fitBounds_calls map)%list).
Proof.
  cbv zeta. split; [|split].
  - destruct (fitToBoundsIfRequested_state st env) as [-> | ->]; reflexivity.
  - intros [Bs Be].
    destruct (fitToBoundsIfRequested_cases st env)
      as [H | (map & s & e & F & M & S & E & H)].
    + rewrite H. split; [|reflexivity].
      induction n as [|n IH]; [reflexivity|]. cbn [renders fst snd]. rewrite H. exact IH.
    + cbv zeta in H. rewrite S in Bs. rewrite E in Be.
      destruct s as [lon1 lat1], e as [lon2 lat2]. cbn [corner_fits] in Bs, Be.
      destruct Bs as [F1 L1], Be as [F2 L2].
      assert (forall x, latitude_in_range x = true -> isNaN x = false) as N
        by (intros [|? ?] Hx; [discriminate Hx | reflexivity]).
      pose proof (fitBounds_returns_box (lon1, lat1) (lon2, lat2) 160 150
                    (is_number_not_NaN _ (finite_is_number _ F1)) (N _ L1)
                    (is_number_not_NaN _ (finite_is_number _ F2)) (N _ L2) L1 L2) as R.
      unfold normalized in H. cbn [fst snd] in R, H. rewrite R in H. rewrite H.
      cbn [fst].
      split; [|intros X; discriminate X].
      induction n as [|n IH]; [reflexivity|]. cbn [renders fst snd].
      unfold fitToBoundsIfRequested at 1. cbn [fitToBoundsNextRender setFitToBoundsNextRender].
      exact IH.
  - intros map s e F M S E R.
    destruct (fitToBoundsIfRequested_cases st env)
      as [H | (map0 & s0 & e0 & _ & M0 & S0 & E0 & H)].
    + exfalso. unfold fitToBoundsIfRequested in H. rewrite F, M, S, E in H.
      cbv zeta in H. destruct (fitBounds_returns _) in H.
      * apply (f_equal fst) in H. apply (f_equal fitToBoundsNextRender) in H.
        cbn in H. congruence.
      * apply (f_equal snd) in H. apply (f_equal mapRef) in H. cbn in H. rewrite M in H.
        injection H as H. apply (f_equal fitBounds_calls) in H. cbn in H.
        apply (f_equal (@List.length _)) in H. cbn in H. lia.
    + rewrite M in M0. injection M0 as <-. rewrite S in S0. injection S0 as <-.
      rewrite E in E0. injection E0 as <-.
      cbv zeta in H. rewrite R in H. rewrite H.
      match goal with
      | |- context [renders n (st, ?env')] =>
          destruct (renders_refused n st env' _ s e F eq_refl S E R)
            as (A & map' & B & C)
      end.
      split; [exact A|]. exists map'. split; [exact B|].
      rewrite C. cbn [fitBounds_calls repeat].
      rewrite (repeat_cons n), <- app_assoc. reflexivity.
Qed.

(** The fragment [-10,20,-5,25] is fitted once; the fragment
    [-10,200,-5,250] is tried at every render. *)
Lemma fitToBounds_one_shot_witness :
  let env1 := navigate "#-10,20,-5,25" env0 in
  let st1 := handleHashChange env1 initialState in
  let env2 := navigate "#-10,200,-5,250" env0 in
  let st2 := handleHashChange env2 initialState in
  renders 3 (fitToBoundsIfRequested st1 env1) = fitToBoundsIfRequested st1 env1
  /\ fst (renders 3 (fitToBoundsIfRequested st2 env2)) = st2
  /\ exists map',
       mapRef (snd (renders 3 (fitToBoundsIfRequested st2 env2))) = Some map'
       /\ List.length (fitBounds_calls map') = 4%nat.
Proof.
  cbv zeta.
  set (env1 := navigate "#-10,20,-5,25" env0).
  set (st1 := handleHashChange env1 initialState).
  set (env2 := navigate "#-10,200,-5,250" env0).
  set (st2 := handleHashChange env2 initialState).
  assert (box_fits (boundingBox st1)) as B1
    by (vm_compute; repeat split; discriminate).
  assert (fitToBoundsNextRender st2 = true) as F2 by (vm_compute; reflexivity).
  assert (start (boundingBox st2) = Some (int (-10), int 200)) as S2
    by (vm_compute; reflexivity).
  assert (end_ (boundingBox st2) = Some (int (-5), int 250)) as E2
    by (vm_compute; reflexivity).
  assert (fitBounds_returns
            {| southwest := fst (normalized (int (-10), int 200) (int (-5), int 250));
               northeast := snd (normalized (int (-10), int 200) (int (-5), int 250));
               padding := 160; duration := 150 |} = false) as R2
    by (vm_compute; reflexivity).
  split.
  - exact (proj1 (proj1 (proj2 (fitToBounds_one_shot 3 st1 env1)) B1)).
  - destruct (proj2 (proj2 (fitToBounds_one_shot 3 st2 env2)) _ _ _ F2 eq_refl S2 E2 R2)
      as (A & map' & B & C).
    split; [exact A|]. exists map'. split; [exact B|]. rewrite C. reflexivity.
Defined.

(** ** The state machine as a whole *)

Lemma renderBoundingBox_window box env :
  window (renderBoundingBox box env) = window env.
Proof.
  unfold renderBoundingBox.
  destruct (start box) as [[? ?]|], (end_ box) as [[? ?]|], (mapRef env) as [map|];
    try reflexivity; destruct (bbox_source map); reflexivity.
Qed.

Lemma fst_step ev st env : fst (step ev (st, env)) = fst (handle ev st env).
Proof.
  unfold step. destruct (handle ev st env) as [st' env'].
  destruct (setsBoundingBox _ _ _); reflexivity.
Qed.

Lemma window_step ev st env :
  window (snd (step ev (st, env))) = window (snd (handle ev st env)).
Proof.
  unfold step. destruct (handle ev st env) as [st' env'].
  destruct (setsBoundingBox _ _ _); cbn [snd];
    [apply renderBoundingBox_window | reflexivity].
Qed.

(** What a fragment can do to the state: nothing, or a complete box without
    NaN and the flag. *)
Lemma handleHashChange_result env st :
  handleHashChange env st = st
  \/ exists s e,
       handleHashChange env st
       = setFitToBoundsNextRender true
           (setBoundingBox {| start := Some s; end_ := Some e |} st)
       /\ isNaN (fst s) = false /\ isNaN (snd s) = false
       /\ isNaN (fst e) = false /\ isNaN (snd e) = false.
Proof.
  unfold handleHashChange.
  destruct (truthy _); [|left; reflexivity].
  set (nums := map Number _).
  destruct (nth_error nums 0) as [a|], (nth_error nums 1) as [b|],
    (nth_error nums 2) as [c|], (nth_error nums 3) as [d|]; cbn [isNaN_elt negb andb];
    rewrite ?andb_false_r; try (left; reflexivity).
  destruct (isNaN a) eqn:Na, (isNaN b) eqn:Nb, (isNaN c) eqn:Nc, (isNaN d) eqn:Nd;
    cbn [negb andb]; try (left; reflexivity).
  right. exists (a, b), (c, d). repeat split; assumption.
Qed.

(** Only a pointer-up writes to the history, and it pushes one entry at
    most: a fragment read from the URL is never written back. *)
Theorem history_only_by_pointer_up (ev : Event) (s : State * Env) :
  history (window (snd (step ev s))) = history (window (snd s))
  \/ exists e url,
       ev = mouseup e
       /\ history (window (snd (step ev s))) = url :: history (window (snd s)).
Proof.
  destruct s as [st env]. rewrite window_step. cbn [snd].
  destruct ev; cbn [handle snd]; try (left; reflexivity).
  - unfold handleMouseUp. destruct (notDrawingRectangle st); [left; reflexivity|].
    destruct (start (boundingBox st)); [|left; reflexivity].
    destruct e as [lon lat]. right. exists (lon, lat).
    destruct (negb _); cbn [snd]; eexists; (split; [reflexivity|]); reflexivity.
  - left. rewrite syncStyle_window. reflexivity.
  - left. rewrite syncStyle_window. reflexivity.
  - left. apply (f_equal history), renderBoundingBox_window.
  - left. rewrite fitToBoundsIfRequested_window. reflexivity.
Qed.

(** A drag in progress is ended by a pointer-up with the rectangle tool and
    by nothing else: not by a change of tool, a key or a fragment. *)
Theorem drag_ends_only_on_pointer_up (ev : Event) (st : State) (env : Env) :
  isDrawing st = true ->
  isDrawing (fst (handle ev st env)) = false ->
  exists e, ev = mouseup e /\ activeTool st = rectangle
            /\ start (boundingBox st) <> None.
Proof.
  intros Hd H. destruct ev; cbn [handle fst] in H.
  - destruct (handleHashChange_result (navigate h env) st) as [E | (s & e & E & _)];
      rewrite E in H; cbn in H; congruence.
  - unfold handleMouseDown in H. destruct (activeTool st); [congruence|].
    destruct e. discriminate H.
  - unfold handleMouseMove in H. destruct (notDrawingRectangle st); [congruence|].
    destruct e. cbn in H. congruence.
  - exists e. destruct (notDrawingRectangle st) eqn:G.
    + unfold handleMouseUp in H. rewrite G in H. cbn in H. congruence.
    + destruct (guard_passes st G) as (T & _ & p & Sp).
      repeat split; [exact T | rewrite Sp; discriminate].
  - unfold handleKeyDown in H.
    destruct (_ && _); [cbn in H; congruence|].
    destruct (_ && _); [cbn in H; congruence|].
    destruct (_ && _); cbn in H; congruence.
  - cbn in H. congruence.
  - cbn in H. congruence.
  - congruence.
  - destruct (fitToBoundsIfRequested_state st env) as [E | E];
      rewrite E in H; cbn in H; congruence.
Qed.

Lemma drag_ends_only_on_pointer_up_witness :
  exists e, mouseup (int 150, int (-34)) = mouseup e
            /\ activeTool dragging = rectangle
            /\ start (boundingBox dragging) <> None.
Proof.
  apply (drag_ends_only_on_pointer_up (mouseup (int 150, int (-34))) dragging env0).
  - reflexivity.
  - assert (notDrawingRectangle dragging = false) as G by reflexivity.
    unfold handle, handleMouseUp. rewrite G. cbn [start boundingBox dragging].
    destruct (strict_eq _ _ && strict_eq _ _); reflexivity.
Defined.

Lemma handle_box_shape ev st env :
  start_before_end (boundingBox st) ->
  (isDrawing st = true -> start (boundingBox st) <> None) ->
  start_before_end (boundingBox (fst (handle ev st env)))
  /\ (isDrawing (fst (handle ev st env)) = true ->
      start (boundingBox (fst (handle ev st env))) <> None).
Proof.
  intros B D. unfold start_before_end in *.
  destruct ev; cbn [handle fst]; try (split; assumption).
  - destruct (handleHashChange_result (navigate h env) st) as [-> | (s & e & -> & _)];
      [split; assumption|].
    cbn. split; intros _; discriminate.
  - unfold handleMouseDown. destruct (activeTool st); [split; assumption|].
    destruct e. cbn. split; intros _; discriminate.
  - unfold handleMouseMove. destruct (notDrawingRectangle st) eqn:G; [split; assumption|].
    destruct (guard_passes st G) as (_ & _ & p & Sp).
    destruct e. cbn. rewrite Sp. split; intros _; discriminate.
  - unfold handleMouseUp. destruct (notDrawingRectangle st) eqn:G; [split; assumption|].
    destruct (guard_passes st G) as (_ & _ & p & Sp). rewrite Sp.
    destruct e. destruct (strict_eq _ _ && strict_eq _ _); cbn; rewrite ?Sp;
      split; intros H; try discriminate; try (exfalso; apply H; reflexivity).
  - unfold handleKeyDown.
    destruct (_ && _); [split; assumption|].
    destruct (_ && _); [split; assumption|].
    destruct (_ && _); split; assumption.
  - destruct (fitToBoundsIfRequested_state st env) as [-> | ->]; split; assumption.
Qed.

(** From the first render on, whatever the fragments and the events: [end]
    is set only on a box whose [start] is set, and while [isDrawing] is on
    the box has its [start]. *)
Theorem box_shape_invariant (evs : list Event) (env : Env) :
  let st := fst (run evs (mount env)) in
  start_before_end (boundingBox st)
  /\ (isDrawing st = true -> start (boundingBox st) <> None).
Proof.
  cbv zeta.
  assert (start_before_end (boundingBox (fst (mount env)))
          /\ (isDrawing (fst (mount env)) = true ->
              start (boundingBox (fst (mount env))) <> None)) as I0.
  { unfold mount. cbn [fst].
    destruct (handleHashChange_result env initialState) as [-> | (s & e & -> & _)];
      cbn; split; intros H; try discriminate; try (exfalso; apply H; reflexivity). }
  revert I0. unfold run. generalize (mount env).
  induction evs as [|ev evs IH]; intros s I0; cbn [fold_left]; [exact I0|].
  apply IH. destruct s as [st env']. rewrite fst_step.
  apply handle_box_shape; apply I0.
Qed.

Lemma renderBoundingBox_fitBounds box env m' :
  mapRef (renderBoundingBox box env) = Some m' ->
  exists m, mapRef env = Some m /\ fitBounds_calls m' = fitBounds_calls m.
Proof.
  unfold renderBoundingBox.
  destruct (mapRef env) as [m|] eqn:M.
  - destruct (start box) as [[? ?]|], (end_ box) as [[? ?]|], (bbox_source m);
      cbn [mapRef]; rewrite ?M; intros [= <-]; exists m; split; reflexivity.
  - destruct (start box) as [[? ?]|], (end_ box) as [[? ?]|];
      rewrite M; intros H; discriminate H.
Qed.

Lemma renderBoundingBox_calls box env :
  calls_ordered env -> calls_ordered (renderBoundingBox box env).
Proof.
  intros C m' H.
  destruct (renderBoundingBox_fitBounds box env m' H) as (m & M & ->).
  apply (C m M).
Qed.

Lemma handle_calls ev st env :
  box_ok (boundingBox st) -> calls_ordered env ->
  calls_ordered (snd (handle ev st env)).
Proof.
  intros B C.
  assert (forall env', mapRef env' = mapRef env -> calls_ordered env') as K
    by (intros env' E; unfold calls_ordered; rewrite E; exact C).
  assert (forall st', calls_ordered (syncStyle st st' env)) as Y.
  { intros st'. destruct (syncStyle_cases st st' env) as [-> | (_ & map & M & ->)];
      [exact C|].
    intros m' H. cbn [mapRef] in H. injection H as <-. apply (C map M). }
  destruct ev; cbn [handle snd]; try (apply K; reflexivity); try apply Y.
  - unfold handleMouseUp. destruct (notDrawingRectangle st); [exact C|].
    destruct (start (boundingBox st)); [|exact C].
    destruct e. destruct (negb _); apply K; reflexivity.
  - apply renderBoundingBox_calls, C.
  - destruct B as [Bs Be].
    destruct (fitToBoundsIfRequested_cases st env)
      as [-> | (map & [lon1 lat1] & [lon2 lat2] & _ & M & S & E & H)]; [exact C|].
    cbv zeta in H. rewrite H. cbn [snd]. rewrite S in Bs. rewrite E in Be.
    intros m' Hm. cbn [mapRef] in Hm. injection Hm as <-.
    cbn [fitBounds_calls]. constructor; [|apply (C map M)].
    cbn in Bs, Be. split; cbn; apply Math_min_le_max; tauto.
Qed.

(** Every [fitBounds] call that the component issues has its southwest
    corner first: its longitude and its latitude are not above those of the
    northeast corner. *)
Theorem fitBounds_calls_ordered (evs : list Event) (env : Env) :
  Forall event_ok evs -> calls_ordered env ->
  calls_ordered (snd (run evs (mount env))).
Proof.
  intros He C.
  assert (box_ok (boundingBox (fst (mount env))) /\ calls_ordered (snd (mount env)))
    as I0.
  { split; [apply handleHashChange_box_ok; split; exact I|].
    apply renderBoundingBox_calls, C. }
  revert I0. unfold run. generalize (mount env).
  induction He as [|ev evs Hev _ IH]; intros s I0; cbn [fold_left]; [apply I0|].
  apply IH. destruct I0 as [B Cs]. split; [apply step_box_ok; assumption|].
  destruct s as [st env']. cbn [fst snd] in *. unfold step.
  pose proof (handle_calls ev st env' B Cs) as H.
  destruct (handle ev st env') as [st' env'']. cbn [snd] in H.
  destruct (setsBoundingBox _ _ _); cbn [snd];
    [apply renderBoundingBox_calls, H | exact H].
Qed.

Lemma fitBounds_calls_ordered_witness :
  calls_ordered
    (snd (run [hashchange "#10,20,-5,2"; render; noMod "r";
               mousedown (int 151, int (-33)); mouseup (int 150, int (-34)); render]
            (mount env0))).
Proof.
  apply (fitBounds_calls_ordered
           [hashchange "#10,20,-5,2"; render; noMod "r";
            mousedown (int 151, int (-33)); mouseup (int 150, int (-34)); render]
           env0).
  - assert (forall z, is_number (int z)) as R
      by (intros z; unfold int; cbn [is_number];
          apply nearest_range; [reflexivity | apply Z.abs_nonneg]).
    repeat (apply Forall_cons;
            [first [exact I | unfold event_ok; cbn [fst snd]; split; apply R]|]).
    apply Forall_nil.
  - intros map H. injection H as <-. constructor.
Defined.

(** ** The URL written and shared *)

(** The handler reads [location.hash] and nothing else of the environment. *)
Lemma handleHashChange_reads_hash env env' st :
  hash (location (window env)) = hash (location (window env')) ->
  handleHashChange env st = handleHashChange env' st.
Proof. intros H. unfold handleHashChange. rewrite H. reflexivity. Qed.

(** The fragment written for two corners with finite coordinates, read
    back. *)
Lemma formatted_box_read_back (s e : LngLat) env st :
  finite (fst s) -> finite (snd s) -> finite (fst e) -> finite (snd e) ->
  hash (location (window env))
  = String "#" (formatBoundingBox (Some s) (Some e) noOptions) ->
  handleHashChange env st
  = setFitToBoundsNextRender true
      (setBoundingBox
         {| start := Some (round6_corner (fst (normalized s e)));
            end_ := Some (round6_corner (snd (normalized s e))) |} st).
Proof.
  destruct s as [lon1 lat1], e as [lon2 lat2]. cbn [fst snd].
  intros F1 F2 F3 F4 H.
  rewrite (handleHashChange_reads_hash env (navigate _ env) st H).
  pose proof (Math_min_finite _ _ F1 F3) as Fa.
  pose proof (Math_min_finite _ _ F2 F4) as Fb.
  pose proof (Math_max_finite _ _ F1 F3) as Fc.
  pose proof (Math_max_finite _ _ F2 F4) as Fd.
  assert (split "," (slice1 (String "#" (formatBoundingBox (Some (lon1, lat1))
                                           (Some (lon2, lat2)) noOptions)))
          = [format (Math_min lon1 lon2); format (Math_min lat1 lat2);
             format (Math_max lon1 lon2); format (Math_max lat1 lat2)]) as S
    by (apply split_join4; apply format_no_comma; assumption).
  rewrite (handleHashChange_accepts _ env st _ _ _ _ _ S)
    by (rewrite Number_format by assumption; apply round6_finite_not_NaN; assumption).
  rewrite !Number_format by assumption. reflexivity.
Qed.

(** Sharing works: the URL that a completed drag pushes, opened afresh,
    shows the box of the drag with its southwest corner first and each
    coordinate rounded to 6 decimals, and asks for the viewport to fit it. *)
Theorem shared_url_restores_box
  (st : State) (env : Env) (start0 e : LngLat) :
  activeTool st = rectangle -> isDrawing st = true ->
  start (boundingBox st) = Some start0 ->
  strict_eq (fst start0) (fst e) && strict_eq (snd start0) (snd e) = false ->
  finite (fst start0) -> finite (snd start0) -> finite (fst e) -> finite (snd e) ->
  all_chars not_hash (pathname (location (window env))) = true ->
  all_chars not_hash (search (location (window env))) = true ->
  let env' := snd (handleMouseUp e st env) in
  fst (mount env')
  = setFitToBoundsNextRender true
      (setBoundingBox
         {| start := Some (round6_corner (fst (normalized start0 e)));
            end_ := Some (round6_corner (snd (normalized start0 e))) |}
         initialState).
Proof.
  intros Ht Hd Hs Hne F1 F2 F3 F4 Hp Hq env'. unfold mount. cbn [fst].
  apply formatted_box_read_back; try assumption.
  unfold env', handleMouseUp. rewrite (guard_passes_intro st start0 Ht Hd Hs), Hs.
  destruct e as [lon lat]. cbn [fst snd] in Hne |- *. rewrite Hne. cbn [negb snd].
  rewrite updateURL_hash by assumption. cbv zeta.
  unfold formatBoundingBox. destruct start0 as [lon0 lat0]. cbn [fst snd] in *.
  cbn [separator order noOptions]. rewrite join4_truthy.
  f_equal. apply formatted_box_plain; assumption.
Qed.

Lemma shared_url_restores_box_witness :
  fst (mount (snd (handleMouseUp (int 150, int (-34)) dragging env0)))
  = setFitToBoundsNextRender true
      (setBoundingBox
         {| start := Some (round6_corner
                             (fst (normalized (int 151, int (-33))
                                     (int 150, int (-34)))));
            end_ := Some (round6_corner
                            (snd (normalized (int 151, int (-33))
                                    (int 150, int (-34))))) |}
         initialState).
Proof.
  assert (strict_eq (int 151) (int 150) && strict_eq (int (-33)) (int (-34)) = false)
    as H1 by (vm_compute; reflexivity).
  assert (forall z, Z.abs z < 2 ^ 53 -> finite (int z)) as R.
  { intros z Hz. unfold int. cbn [finite].
    pose proof (nearest_range 1 eq_refl (Z.abs z) (Z.abs_nonneg z)).
    pose proof (nearest_mono 1 eq_refl (Z.abs z) (2 ^ 53)
                  ltac:(pose proof (Z.abs_nonneg z); lia)) as M.
    assert (nearest (2 ^ 53) 1 < INF) by (vm_compute; reflexivity). lia. }
  apply (shared_url_restores_box dragging env0 (int 151, int (-33))
           (int 150, int (-34)) eq_refl eq_refl eq_refl H1);
    try reflexivity; cbn [fst snd]; apply R; vm_compute; reflexivity.
Defined.

(** A drag that ends where it started leaves a URL that, opened afresh,
    shows no box. *)
Theorem cleared_url_shows_no_box
  (st : State) (env : Env) (start0 e : LngLat) :
  activeTool st = rectangle -> isDrawing st = true ->
  start (boundingBox st) = Some start0 ->
  strict_eq (fst start0) (fst e) && strict_eq (snd start0) (snd e) = true ->
  all_chars not_hash (pathname (location (window env))) = true ->
  all_chars not_hash (search (location (window env))) = true ->
  fst (mount (snd (handleMouseUp e st env))) = initialState.
Proof.
  intros Ht Hd Hs He Hp Hq. unfold mount. cbn [fst].
  assert (hash (location (window (snd (handleMouseUp e st env)))) = EmptyString) as H.
  { unfold handleMouseUp. rewrite (guard_passes_intro st start0 Ht Hd Hs), Hs.
    destruct e as [lon lat]. cbn [fst snd] in He |- *. rewrite He. cbn [negb snd].
    rewrite updateURL_hash by assumption. reflexivity. }
  unfold handleHashChange. rewrite H. reflexivity.
Qed.

Lemma cleared_url_shows_no_box_witness :
  fst (mount (snd (handleMouseUp (int 151, int (-33)) dragging env0))) = initialState.
Proof.
  assert (strict_eq (int 151) (int 151) && strict_eq (int (-33)) (int (-33)) = true)
    as H1 by (vm_compute; reflexivity).
  apply (cleared_url_shows_no_box dragging env0 (int 151, int (-33))
           (int 151, int (-33)) eq_refl eq_refl eq_refl H1); reflexivity.
Defined.

(** ** The formatted coordinates *)

(** What [Number] reads in a formatted coordinate: the coordinate rounded
    to 6 decimals when it is finite, and NaN for an infinity or NaN, which
    are written by name. *)
Theorem formatCoordinate_read_back (x : number) :
  is_number x \/ x = NaN ->
  Number (formatCoordinate x) = if finiteb x then round6 x else NaN.
Proof.
  intros [H | ->]; [|vm_compute; reflexivity].
  destruct x as [|neg m]; [contradiction|]. cbn [is_number] in H.
  unfold formatCoordinate, finiteb.
  destruct (Z.ltb_spec m INF) as [L|G].
  - assert ((0 <=? m) = true) as -> by (apply Z.leb_le; lia). cbn [andb].
    apply Number_format. cbn [finite]. lia.
  - rewrite andb_false_r. assert (m = INF) as -> by lia.
    destruct neg; vm_compute; reflexivity.
Qed.

Lemma formatCoordinate_read_back_witness :
  Number (formatCoordinate (Number "150.1234567")) = Number "150.123457"
  /\ Number (formatCoordinate (Number "0.1234565")) = Number "0.123457"
  /\ Number (formatCoordinate (Number "-Infinity")) = NaN.
Proof.
  split; [|split].
  - rewrite (formatCoordinate_read_back (Number "150.1234567"));
      [vm_compute; reflexivity | left; vm_compute; split; discriminate].
  - rewrite (formatCoordinate_read_back (Number "0.1234565"));
      [vm_compute; reflexivity | left; vm_compute; split; discriminate].
  - rewrite (formatCoordinate_read_back (Number "-Infinity"));
      [vm_compute; reflexivity | left; vm_compute; split; discriminate].
Defined.

Lemma all_chars_not c s :
  is_numeric c = false -> all_chars is_numeric s = true ->
  all_chars (fun k => negb (Ascii.eqb k c)) s = true.
Proof.
  intros Hc. apply all_chars_weaken. intros k Hk.
  destruct (Ascii.eqb_spec k c) as [->|]; [congruence | reflexivity].
Qed.

Lemma split_piece c s :
  all_chars (fun k => negb (Ascii.eqb k c)) s = true -> split c s = [s].
Proof.
  induction s as [|k r IH]; [reflexivity|]. cbn [all_chars split]. intros H.
  apply andb_true_iff in H as [Hk Hr]. apply negb_true_iff in Hk.
  rewrite Hk, (IH Hr). reflexivity.
Qed.

Lemma split_piece_app c s r :
  all_chars (fun k => negb (Ascii.eqb k c)) s = true ->
  split c (s ++ String c r) = s :: split c r.
Proof.
  induction s as [|k t IH]; cbn [all_chars append split].
  - intros _. rewrite Ascii.eqb_refl. reflexivity.
  - intros H. apply andb_true_iff in H as [Hk Hr]. apply negb_true_iff in Hk.
    rewrite Hk, (IH Hr). reflexivity.
Qed.

(** With a separator of one character that is not a digit, a point or a
    minus sign, the formatted box splits at the separator into its four
    coordinates: southwest then northeast, longitude first in the order
    [lonLat] and latitude first in the order [latLon]. *)
Theorem formatBoundingBox_components
  (sep : ascii) (o : Order) (lon1 lat1 lon2 lat2 : number) :
  is_numeric sep = false ->
  finite lon1 -> finite lat1 -> finite lon2 -> finite lat2 ->
  split sep
    (formatBoundingBox (Some (lon1, lat1)) (Some (lon2, lat2))
       {| separator := Some (String sep EmptyString); order := Some o |})
  = match o with
    | lonLat => [formatCoordinate (Math_min lon1 lon2);
                 formatCoordinate (Math_min lat1 lat2);
                 formatCoordinate (Math_max lon1 lon2);
                 formatCoordinate (Math_max lat1 lat2)]
    | latLon => [formatCoordinate (Math_min lat1 lat2);
                 formatCoordinate (Math_min lon1 lon2);
                 formatCoordinate (Math_max lat1 lat2);
                 formatCoordinate (Math_max lon1 lon2)]
    end.
Proof.
  intros Hc F1 F2 F3 F4.
  assert (forall x, finite x ->
                    all_chars (fun k => negb (Ascii.eqb k sep)) (format x) = true) as P
    by (intros x Hx; apply all_chars_not; [exact Hc | apply format_numeric, Hx]).
  assert (forall a b c d,
             all_chars (fun k => negb (Ascii.eqb k sep)) a = true ->
             all_chars (fun k => negb (Ascii.eqb k sep)) b = true ->
             all_chars (fun k => negb (Ascii.eqb k sep)) c = true ->
             all_chars (fun k => negb (Ascii.eqb k sep)) d = true ->
             split sep (join (String sep EmptyString) [a; b; c; d]) = [a; b; c; d]) as J.
  { intros a b c d Ha Hb Hc' Hd. unfold join. cbn [concat].
    assert (forall x, (String sep EmptyString ++ x)%string = String sep x) as E
      by reflexivity.
    rewrite !E.
    rewrite (split_piece_app sep a), (split_piece_app sep b),
      (split_piece_app sep c) by assumption.
    rewrite split_piece by assumption. reflexivity. }
  pose proof (Math_min_finite _ _ F1 F3). pose proof (Math_min_finite _ _ F2 F4).
  pose proof (Math_max_finite _ _ F1 F3). pose proof (Math_max_finite _ _ F2 F4).
  unfold formatBoundingBox, formatCoordinate. cbn [separator order].
  destruct o; apply J; apply P; assumption.
Qed.

Lemma formatBoundingBox_components_witness :
  split " "
    (formatBoundingBox (Some (int 151, int (-33))) (Some (int 150, int (-34)))
       {| separator := Some " "%string; order := Some latLon |})
  = ["-34"; "150"; "-33"; "151"]%string.
Proof.
  assert (forall z, Z.abs z < 2 ^ 53 -> finite (int z)) as R.
  { intros z Hz. unfold int. cbn [finite].
    pose proof (nearest_range 1 eq_refl (Z.abs z) (Z.abs_nonneg z)).
    pose proof (nearest_mono 1 eq_refl (Z.abs z) (2 ^ 53)
                  ltac:(pose proof (Z.abs_nonneg z); lia)) as M.
    assert (nearest (2 ^ 53) 1 < INF) by (vm_compute; reflexivity). lia. }
  rewrite (formatBoundingBox_components " " latLon (int 151) (int (-33)) (int 150)
             (int (-34)) eq_refl);
    try (apply R; vm_compute; reflexivity).
  vm_compute. reflexivity.
Defined.

(** ** The coordinates panel *)

Lemma digits_of_head fuel n acc :
  (exists c r, acc = String c r /\ is_digit c = true) \/ (0 < fuel)%nat ->
  exists c r, digits_of fuel n acc = String c r /\ is_digit c = true.
Proof.
  revert n acc. induction fuel as [|f IH]; intros n acc H; cbn [digits_of].
  - destruct H as [H | H]; [exact H | lia].
  - assert (exists c r, String (digit_char (n mod 10)) acc = String c r
                        /\ is_digit c = true) as D
      by (do 2 eexists; split; [reflexivity|];
          apply is_digit_digit_char, Z.mod_pos_bound; lia).
    destruct (n <? 10); [exact D|]. apply IH. left. exact D.
Qed.

(** A formatted coordinate followed by anything is not the placeholder. *)
Lemma format_not_placeholder x rest : (format x ++ rest)%string <> placeholder.
Proof.
  unfold placeholder. destruct x as [|neg m]; [discriminate|]. unfold format.
  destruct neg; [discriminate|]. cbn [append].
  destruct (INF <=? m); [discriminate|]. unfold fixed6, decimal_digits.
  destruct (digits_of_head (S (Z.to_nat (Z.log2 (micro m / 10 ^ 6))))
              (micro m / 10 ^ 6) EmptyString) as (c & r & -> & D); [right; lia|].
  cbn [append]. intros H. injection H as -> _. discriminate D.
Qed.

(** The panel shows the placeholder exactly when a corner of the box is
    missing, and the formatted box otherwise. *)
Theorem placeholder_iff_incomplete (st : State) :
  (getFormattedBoundingBox st = placeholder
   <-> start (boundingBox st) = None \/ end_ (boundingBox st) = None)
  /\ (forall s e,
        start (boundingBox st) = Some s -> end_ (boundingBox st) = Some e ->
        getFormattedBoundingBox st = formatBoundingBox (Some s) (Some e) noOptions).
Proof.
  unfold getFormattedBoundingBox.
  destruct (start (boundingBox st)) as [[lon1 lat1]|],
    (end_ (boundingBox st)) as [[lon2 lat2]|];
    try (split; [split; [auto | intros _; reflexivity]
                |intros ? ? H1 H2; first [discriminate H1 | discriminate H2]]).
  assert (truthy (formatBoundingBox (Some (lon1, lat1)) (Some (lon2, lat2)) noOptions)
          = true) as T by apply join4_truthy.
  rewrite T. split.
  - split; [|intros [H | H]; discriminate H].
    intros H. exfalso. revert H. unfold formatBoundingBox, join.
    cbn [separator order noOptions concat]. apply format_not_placeholder.
  - intros s e [= <-] [= <-]. reflexivity.
Qed.

(** ** The coordinates of the box over a session *)

(** A session with a fragment that holds an infinity and a drag. *)
Lemma run_box_ok_witness :
  box_ok (boundingBox
            (fst (run [hashchange "#Infinity,0,1,1"; noMod "r";
                       mousedown (int 151, int (-33));
                       mousemove (int 150, int (-34))]
                    (mount env0)))).
Proof.
  apply (run_box_ok [hashchange "#Infinity,0,1,1"; noMod "r";
                     mousedown (int 151, int (-33));
                     mousemove (int 150, int (-34))] env0).
  assert (forall z, is_number (int z)) as R
    by (intros z; unfold int; cbn [is_number];
        apply nearest_range; [reflexivity | apply Z.abs_nonneg]).
  repeat (apply Forall_cons;
          [first [exact I | unfold event_ok; cbn [fst snd]; split; apply R]|]).
  apply Forall_nil.
Defined.
